(** * RMSTest.py: greatest product and unique runs in a number grid

    A shallow embedding of [src/RMSTest.py].  Python integers are [Z],
    a [NumberGrid] is a list of rows, raised exceptions are explicit
    results, the [seen] set of tuples is a [gset (list Z)]. *)

From Stdlib Require Import ZArith List Lia String.
From stdpp Require Import base gmap sets list list_numbers lexico.

#[local] Set Warnings "-clear-no-such-hyp".
Local Open Scope Z_scope.

(** ** Exceptions and results *)

Inductive exn : Type :=
  | ValueError (msg : string)
  | IndexError.

Inductive result (A : Type) : Type :=
  | Ok (a : A)
  | Raise (e : exn).

Arguments Ok {A} a.
Arguments Raise {A} e.

(** Sequencing: an exception raised by [m] skips the rest. *)
Definition bind {A B} (f : A → result B) (m : result A) : result B :=
  match m with
  | Ok a => f a
  | Raise e => Raise e
  end.

#[global] Instance result_ret : MRet result := @Ok.
#[global] Instance result_bind : MBind result := @bind.

(** A [for x in xs] loop whose body updates the loop state [s] and may raise. *)
Fixpoint for_each {A S} (body : S → A → result S) (xs : list A) (s : S)
  : result S :=
  match xs with
  | [] => Ok s
  | x :: xs' =>
      match body s x with
      | Ok s' => for_each body xs' s'
      | Raise e => Raise e
      end
  end.

(** ** Python sequences *)

Abbreviation NumberGrid := (list (list Z)).

Definition len {A} (l : list A) : Z := Z.of_nat (length l).

(** [range(n)]: empty when [n <= 0]. *)
Definition range (n : Z) : list Z := seqZ 0 n.

(** [l[i]]: a negative index counts from the end, anything outside
    [-len(l) <= i < len(l)] raises [IndexError]. *)
Definition getitem {A} (l : list A) (i : Z) : result A :=
  let j := if i <? 0 then i + len l else i in
  if (0 <=? j) && (j <? len l) then
    match l !! Z.to_nat j with
    | Some x => Ok x
    | None => Raise IndexError
    end
  else Raise IndexError.

(** Tuple comparison [a < b]: the first differing position decides,
    otherwise the shorter tuple is the smaller. *)
Fixpoint tuple_lt (a b : list Z) : bool :=
  match a, b with
  | [], [] => false
  | [], _ :: _ => true
  | _ :: _, [] => false
  | x :: a', y :: b' => if x =? y then tuple_lt a' b' else x <? y
  end.

(** [min(a, b)] on tuples: [b] only when it is strictly smaller. *)
Definition tuple_min (a b : list Z) : list Z :=
  if tuple_lt b a then b else a.

(** ** The traversal shared by both functions *)

(** The four base directions [(dr, dc)]: right, down, down-right, down-left. *)
Definition directions : list (Z * Z) :=
  [(0, 1); (1, 0); (1, 1); (1, -1)].

(** [0 <= end_r < row_count and 0 <= end_c < col_count] *)
Definition in_grid (row_count col_count end_r end_c : Z) : bool :=
  (0 <=? end_r) && (end_r <? row_count) && (0 <=? end_c) && (end_c <? col_count).

(** ** find_greatest_product_of_contiguous_integers *)

(** The inner loop: [product = 1; for i in range(k): product *= grid[rr][cc]]. *)
Definition run_product (grid : NumberGrid) (k r c dr dc : Z) : result Z :=
  for_each (fun product i =>
              row ← getitem grid (r + i * dr);
              v ← getitem row (c + i * dc);
              Ok (product * v))
           (range k) 1.

(** [if max_product is None or product > max_product: max_product = product] *)
Definition update_max (max_product : option Z) (product : Z) : option Z :=
  match max_product with
  | None => Some product
  | Some m => if product >? m then Some product else Some m
  end.

(** One iteration of the innermost [for dr, dc in directions] body. *)
Definition product_step (grid : NumberGrid) (row_count col_count k r c : Z)
    (max_product : option Z) (d : Z * Z) : result (option Z) :=
  let '(dr, dc) := d in
  let end_r := r + (k - 1) * dr in
  let end_c := c + (k - 1) * dc in
  if negb (in_grid row_count col_count end_r end_c) then Ok max_product
  else
    product ← run_product grid k r c dr dc;
    Ok (update_max max_product product).

(** The three nested loops, for a given list of directions. *)
Definition greatest_product_over (dirs : list (Z * Z)) (grid : NumberGrid)
    (row_count col_count k : Z) : result (option Z) :=
  for_each (fun acc r =>
    for_each (fun acc c =>
      for_each (product_step grid row_count col_count k r c) dirs acc)
      (range col_count) acc)
    (range row_count) None.

Definition find_greatest_product_of_contiguous_integers
    (grid : NumberGrid) (contiguous_integers : Z) : result Z :=
  if contiguous_integers <? 1 then
    Raise (ValueError "contiguous_integers must be >= 1")
  else if (len grid =? 0) then
    Raise (ValueError "Grid must not be empty")
  else
    let row_count := len grid in
    row0 ← getitem grid 0;
    let col_count := len row0 in
    if existsb (fun row => negb (len row =? col_count)) grid then
      Raise (ValueError "All rows in the grid must have the same length")
    else
      let k := contiguous_integers in
      max_product ← greatest_product_over directions grid row_count col_count k;
      Ok (match max_product with
          | Some m => m
          | None => 0
          end).

(** ** The product search with its multiplications counted

    The same function once more, every part returning next to its result
    the number of times [product *= grid[rr][cc]] was executed. *)

Fixpoint for_each_counted {A S} (body : S → A → result S * nat)
    (xs : list A) (s : S) : result S * nat :=
  match xs with
  | [] => (Ok s, 0%nat)
  | x :: xs' =>
      match body s x with
      | (Ok s', n) =>
          let '(res, n') := for_each_counted body xs' s' in (res, (n + n')%nat)
      | (Raise e, n) => (Raise e, n)
      end
  end.

Definition run_product_counted (grid : NumberGrid) (k r c dr dc : Z)
  : result Z * nat :=
  for_each_counted (fun product i =>
                      match row ← getitem grid (r + i * dr);
                            getitem row (c + i * dc) with
                      | Ok v => (Ok (product * v), 1%nat)
                      | Raise e => (Raise e, 0%nat)
                      end)
                   (range k) 1.

Definition product_step_counted (grid : NumberGrid)
    (row_count col_count k r c : Z)
    (max_product : option Z) (d : Z * Z) : result (option Z) * nat :=
  let '(dr, dc) := d in
  let end_r := r + (k - 1) * dr in
  let end_c := c + (k - 1) * dc in
  if negb (in_grid row_count col_count end_r end_c) then (Ok max_product, 0%nat)
  else
    match run_product_counted grid k r c dr dc with
    | (Ok product, n) => (Ok (update_max max_product product), n)
    | (Raise e, n) => (Raise e, n)
    end.

Definition greatest_product_over_counted (dirs : list (Z * Z))
    (grid : NumberGrid) (row_count col_count k : Z)
  : result (option Z) * nat :=
  for_each_counted (fun acc r =>
    for_each_counted (fun acc c =>
      for_each_counted (product_step_counted grid row_count col_count k r c)
                       dirs acc)
      (range col_count) acc)
    (range row_count) None.

Definition find_greatest_product_counted
    (grid : NumberGrid) (contiguous_integers : Z) : result Z * nat :=
  if contiguous_integers <? 1 then
    (Raise (ValueError "contiguous_integers must be >= 1"), 0%nat)
  else if (len grid =? 0) then
    (Raise (ValueError "Grid must not be empty"), 0%nat)
  else
    let row_count := len grid in
    match getitem grid 0 with
    | Raise e => (Raise e, 0%nat)
    | Ok row0 =>
        let col_count := len row0 in
        if existsb (fun row => negb (len row =? col_count)) grid then
          (Raise (ValueError "All rows in the grid must have the same length"),
           0%nat)
        else
          let k := contiguous_integers in
          match greatest_product_over_counted directions grid
                  row_count col_count k with
          | (Ok (Some m), n) => (Ok m, n)
          | (Ok None, n) => (Ok 0, n)
          | (Raise e, n) => (Raise e, n)
          end
    end.

(** ** count_unique_combinations_of_length_k *)

(** The inner loop: [seq = []; for i in range(k): seq.append(grid[rr][cc])]. *)
Definition run_values (grid : NumberGrid) (k r c dr dc : Z) : result (list Z) :=
  for_each (fun seq i =>
              row ← getitem grid (r + i * dr);
              v ← getitem row (c + i * dc);
              Ok (seq ++ [v]))
           (range k) [].

(** [canonical = min(tuple(seq), tuple(reversed(seq)))] *)
Definition canonical (seq : list Z) : list Z :=
  let fwd := seq in
  let rev := reverse seq in
  tuple_min fwd rev.

Definition count_step (grid : NumberGrid) (row_count col_count k r c : Z)
    (seen : gset (list Z)) (d : Z * Z) : result (gset (list Z)) :=
  let '(dr, dc) := d in
  let end_r := r + (k - 1) * dr in
  let end_c := c + (k - 1) * dc in
  if negb (in_grid row_count col_count end_r end_c) then Ok seen
  else
    seq ← run_values grid k r c dr dc;
    Ok ({[ canonical seq ]} ∪ seen).

Definition seen_over (dirs : list (Z * Z)) (grid : NumberGrid)
    (row_count col_count k : Z) : result (gset (list Z)) :=
  for_each (fun seen r =>
    for_each (fun seen c =>
      for_each (count_step grid row_count col_count k r c) dirs seen)
      (range col_count) seen)
    (range row_count) ∅.

Definition count_unique_combinations_of_length_k
    (grid : NumberGrid) (k : Z) : result Z :=
  let row_count := len grid in
  col_count ← (if 0 <? row_count
               then row0 ← getitem grid 0; Ok (len row0)
               else Ok 0);
  seen ← seen_over directions grid row_count col_count k;
  Ok (Z.of_nat (size seen)).

(** ** The sample grid of the driver *)

Definition sample_grid : NumberGrid :=
  [ [8; 2; 22; 97; 38; 15; 0; 40; 0; 75];
    [49; 49; 99; 40; 17; 81; 18; 57; 60; 87];
    [81; 49; 31; 73; 55; 79; 14; 29; 93; 71];
    [52; 70; 95; 23; 4; 60; 11; 42; 69; 24];
    [22; 31; 16; 71; 51; 67; 63; 89; 41; 92];
    [24; 47; 32; 60; 99; 3; 45; 2; 44; 75];
    [32; 98; 81; 28; 64; 23; 67; 10; 26; 38];
    [67; 26; 20; 68; 2; 62; 12; 20; 95; 63];
    [24; 55; 58; 5; 66; 73; 99; 26; 97; 17];
    [21; 36; 23; 9; 75; 0; 76; 44; 20; 45] ].

(** ** Reference notions: cells, runs and their value sequences *)

Definition rows (g : NumberGrid) : Z := len g.
Definition cols (g : NumberGrid) : Z := len (default [] (head g)).

(** Every row is as long as the first one. *)
Definition rectangular (g : NumberGrid) : Prop :=
  ∀ row, row ∈ g → len row = cols g.

(** Some row's length differs from the first row's. *)
Definition ragged (g : NumberGrid) : Prop :=
  ∃ row, row ∈ g ∧ len row ≠ cols g.

(** The value at an in-bounds position. *)
Definition cell (g : NumberGrid) (r c : Z) : Z :=
  default 0 (g !! Z.to_nat r ≫= λ row, row !! Z.to_nat c).

(** All the cell values of a grid, row by row. *)
Definition cells (g : NumberGrid) : list Z := mjoin g.

(** A run: its start position and its direction. *)
Record run : Type := Run { run_r : Z; run_c : Z; run_dr : Z; run_dc : Z }.

(** The positions a run of length [k] visits, and the values found there. *)
Definition line (g : NumberGrid) (k : Z) (ρ : run) : list Z :=
  (λ i, cell g (run_r ρ + i * run_dr ρ) (run_c ρ + i * run_dc ρ)) <$> range k.

(** Every run of length [k] in one of [dirs] that starts in the grid and
    ends in the grid, in row-major order of the start cell. *)
Definition enumerate_runs (dirs : list (Z * Z)) (R C k : Z) : list run :=
  r ← range R; c ← range C; d ← dirs;
  if in_grid R C (r + (k - 1) * d.1) (c + (k - 1) * d.2)
  then [Run r c d.1 d.2] else [].

Definition product (l : list Z) : Z := foldr Z.mul 1 l.

(** The four base directions followed by their reversals. *)
Definition directions8 : list (Z * Z) :=
  directions ++ [(0, -1); (-1, 0); (-1, -1); (-1, 1)].

(** [m] is the greatest element of [l]. *)
Definition is_maximum (m : Z) (l : list Z) : Prop :=
  m ∈ l ∧ ∀ x, x ∈ l → x ≤ m.

(** The lexicographically smaller of a value sequence and its reversal,
    in the lexicographic order on sequences of integers. *)
Definition canonical_identity (s : list Z) : list Z :=
  match trichotomyT lexico (reverse s) s with
  | inleft (left _) => reverse s
  | _ => s
  end.

(** The set of canonical identities of the in-bounds runs of length [k]
    that start at any cell and go in one of the four base directions. *)
Definition run_identities (g : NumberGrid) (k : Z) : gset (list Z) :=
  list_to_set (canonical_identity ∘ line g k
                 <$> enumerate_runs directions (rows g) (cols g) k).

(** The grid mirrored left-right and top-bottom. *)
Definition reflect_lr (g : NumberGrid) : NumberGrid := reverse <$> g.
Definition reflect_tb (g : NumberGrid) : NumberGrid := reverse g.

(** A run is inside the grid when its first and last cells are. *)
Definition inside (R C k : Z) (ρ : run) : Prop :=
  0 ≤ run_r ρ < R ∧ 0 ≤ run_c ρ < C ∧
  0 ≤ run_r ρ + (k - 1) * run_dr ρ < R ∧ 0 ≤ run_c ρ + (k - 1) * run_dc ρ < C.

(** The same cells walked from the other end. *)
Definition reversed (k : Z) (ρ : run) : run :=
  Run (run_r ρ + (k - 1) * run_dr ρ) (run_c ρ + (k - 1) * run_dc ρ)
      (- run_dr ρ) (- run_dc ρ).

(** The run that visits, in the original grid, the cells a run visits in the
    mirrored grid. *)
Definition mirror_lr (C : Z) (ρ : run) : run :=
  Run (run_r ρ) (C - 1 - run_c ρ) (run_dr ρ) (- run_dc ρ).
Definition mirror_tb (R : Z) (ρ : run) : run :=
  Run (R - 1 - run_r ρ) (run_c ρ) (- run_dr ρ) (run_dc ρ).

(** A result that is not a [ValueError]. *)
Definition index_error_only {A} (m : result A) : Prop :=
  ∀ msg, m ≠ Raise (ValueError msg).

(** The grid with rows and columns exchanged: row [c] of the result lists
    the cells of column [c]. *)
Definition transpose (g : NumberGrid) : NumberGrid :=
  (λ c, (λ r, cell g r c) <$> range (rows g)) <$> range (cols g).

(** A run with rows and columns exchanged. *)
Definition swap (ρ : run) : run :=
  Run (run_c ρ) (run_r ρ) (run_dc ρ) (run_dr ρ).

(** No row is shorter than the first one. *)
Definition wide (g : NumberGrid) : Prop :=
  ∀ row, row ∈ g → cols g ≤ len row.

(** Some row is shorter than the first one. *)
Definition short_row (g : NumberGrid) : Prop :=
  ∃ row, row ∈ g ∧ len row < cols g.

(** Every row cut to the length of the first one. *)
Definition crop (g : NumberGrid) : NumberGrid :=
  take (Z.to_nat (cols g)) <$> g.

(** ** The runs of a grid, stated without the traversal *)

(** The four base directions written out: right, down, down-right,
    down-left. *)
Definition base_directions : list (Z * Z) :=
  [(0, 1); (1, 0); (1, 1); (1, -1)].

#[global] Instance inside_dec (R C k : Z) (ρ : run) : Decision (inside R C k ρ).
Proof. unfold inside. apply _. Defined.

(** Every start cell of an [R] by [C] grid with every base direction, kept
    when the run of length [k] from there lies inside the grid. *)
Definition reference_runs (R C k : Z) : list run :=
  filter (inside R C k)
    (r ← seqZ 0 R; c ← seqZ 0 C; d ← base_directions; [Run r c d.1 d.2]).

(** The canonical identities of those runs. *)
Definition reference_identities (g : NumberGrid) (k : Z) : gset (list Z) :=
  list_to_set (canonical_identity ∘ line g k
                 <$> reference_runs (rows g) (cols g) k).

(** How many runs of length [k] lie inside an [R] by [C] grid: in each of
    the [R] rows [C - k + 1] runs to the right, in each of the [C] columns
    [R - k + 1] runs down, and [(R - k + 1) * (C - k + 1)] runs along each
    of the two diagonals. *)
Definition fitting_runs (R C k : Z) : Z :=
  R * Z.max 0 (C - k + 1) + Z.max 0 (R - k + 1) * C
  + 2 * (Z.max 0 (R - k + 1) * Z.max 0 (C - k + 1)).

(** * Proofs *)

(** ** Loops *)

Section for_each.
Context {A S : Type}.
Implicit Types (body : S → A → result S) (xs : list A) (s : S).

Lemma for_each_pure body (f : S → A → S) xs s :
  (∀ s x, x ∈ xs → body s x = Ok (f s x)) →
  for_each body xs s = Ok (foldl f s xs).
Proof.
  revert s. induction xs as [|x xs IH]; intros s Hb; simpl; [done|].
  rewrite Hb by left. apply IH. intros s' y Hy. apply Hb. by right.
Qed.

Lemma for_each_bind {B} body (g : A → list B) (f : S → B → S) xs s :
  (∀ s x, x ∈ xs → body s x = Ok (foldl f s (g x))) →
  for_each body xs s = Ok (foldl f s (xs ≫= g)).
Proof.
  intros Hb. rewrite (for_each_pure body (λ s x, foldl f s (g x))) by done.
  f_equal. clear Hb. revert s.
  induction xs as [|x xs IH]; intros s; simpl; [done|].
  by rewrite foldl_app, IH.
Qed.
End for_each.

(** ** Erasing the multiplication count *)

Lemma for_each_ext {A S} (body body' : S → A → result S) (xs : list A) (s : S) :
  (∀ s x, body s x = body' s x) → for_each body xs s = for_each body' xs s.
Proof.
  intros Hb. revert s. induction xs as [|x xs IH]; intros s; simpl; [done|].
  rewrite Hb. by destruct (body' s x).
Qed.

Lemma for_each_counted_fst {A S} (body : S → A → result S * nat)
    (xs : list A) (s : S) :
  (for_each_counted body xs s).1 = for_each (λ s x, (body s x).1) xs s.
Proof.
  revert s. induction xs as [|x xs IH]; intros s; simpl; [done|].
  destruct (body s x) as [[s'|e] n]; simpl; [|done].
  rewrite <- IH. by destruct (for_each_counted body xs s').
Qed.

Lemma run_product_counted_fst (g : NumberGrid) (k r c dr dc : Z) :
  (run_product_counted g k r c dr dc).1 = run_product g k r c dr dc.
Proof.
  unfold run_product_counted, run_product. rewrite for_each_counted_fst.
  apply for_each_ext. intros p i.
  destruct (getitem g _) as [row|e]; simpl; [|done].
  by destruct (getitem row _).
Qed.

Lemma greatest_product_over_counted_fst dirs (g : NumberGrid) (R C k : Z) :
  (greatest_product_over_counted dirs g R C k).1
  = greatest_product_over dirs g R C k.
Proof.
  unfold greatest_product_over_counted, greatest_product_over.
  rewrite for_each_counted_fst. apply for_each_ext. intros s1 r.
  rewrite for_each_counted_fst. apply for_each_ext. intros s2 c.
  rewrite for_each_counted_fst. apply for_each_ext. intros s3 [dr dc].
  unfold product_step_counted, product_step.
  destruct (negb _); [done|].
  rewrite <- run_product_counted_fst.
  by destruct (run_product_counted _ _ _ _ _ _) as [[p|e] n].
Qed.

(** Dropping the count gives back the function itself. *)
Lemma find_greatest_product_counted_fst (g : NumberGrid) (k : Z) :
  (find_greatest_product_counted g k).1
  = find_greatest_product_of_contiguous_integers g k.
Proof.
  unfold find_greatest_product_counted,
    find_greatest_product_of_contiguous_integers.
  destruct (k <? 1); [done|]. destruct (len g =? 0); [done|].
  destruct (getitem g 0) as [row0|e]; simpl; [|done].
  destruct (existsb _ g); [done|].
  rewrite <- greatest_product_over_counted_fst.
  by destruct (greatest_product_over_counted _ _ _ _ _) as [[[m|]|e] n].
Qed.

(** ** Indexing *)

Lemma getitem_lookup {A} (l : list A) (i : Z) (x : A) :
  0 ≤ i → l !! Z.to_nat i = Some x → getitem l i = Ok x.
Proof.
  intros Hi Hx. unfold getitem, len.
  pose proof (lookup_lt_Some _ _ _ Hx) as Hlt.
  destruct (Z.ltb_spec i 0); [lia|].
  destruct (Z.leb_spec 0 i); [|lia].
  destruct (Z.ltb_spec i (Z.of_nat (length l))); [|lia].
  simpl. by rewrite Hx.
Qed.

Lemma rectangular_row (g : NumberGrid) r :
  rectangular g → 0 ≤ r < rows g →
  ∃ row, g !! Z.to_nat r = Some row ∧ len row = cols g.
Proof.
  intros Hrect Hr. unfold rows, len in Hr.
  destruct (lookup_lt_is_Some_2 g (Z.to_nat r)) as [row Hrow]; [lia|].
  exists row. split; [done|]. apply Hrect. by eapply list_elem_of_lookup_2.
Qed.

Lemma getitem_cell (g : NumberGrid) r c :
  rectangular g → 0 ≤ r < rows g → 0 ≤ c < cols g →
  (getitem g r ≫= λ row, getitem row c) = Ok (cell g r c).
Proof.
  intros Hrect Hr Hc.
  destruct (rectangular_row g r Hrect Hr) as (row & Hrow & Hlen).
  rewrite (getitem_lookup g r row) by (done || lia). simpl.
  unfold len in Hlen.
  destruct (lookup_lt_is_Some_2 row (Z.to_nat c)) as [v Hv]; [lia|].
  rewrite (getitem_lookup row c v) by (done || lia).
  unfold cell. by rewrite Hrow; simpl; rewrite Hv.
Qed.

(** ** Runs stay inside the grid *)

Lemma between_in_range (R r d n i : Z) :
  0 ≤ r < R → 0 ≤ r + n * d < R → 0 ≤ i ≤ n → 0 ≤ r + i * d < R.
Proof.
  intros Hr Hend Hi.
  destruct (Z.le_gt_cases 0 d) as [Hd|Hd].
  - pose proof (Z.mul_nonneg_nonneg i d ltac:(lia) Hd).
    pose proof (Z.mul_le_mono_nonneg_r i n d Hd ltac:(lia)). lia.
  - pose proof (Z.mul_nonneg_nonneg i (- d) ltac:(lia) ltac:(lia)).
    pose proof (Z.mul_le_mono_nonneg_r i n (- d) ltac:(lia) ltac:(lia)). lia.
Qed.

Lemma elem_of_range (n i : Z) : i ∈ range n ↔ 0 ≤ i < n.
Proof. unfold range. rewrite elem_of_seqZ. lia. Qed.

Lemma in_grid_spec (R C r c : Z) :
  in_grid R C r c = true ↔ 0 ≤ r < R ∧ 0 ≤ c < C.
Proof.
  unfold in_grid. rewrite !andb_true_iff, !Z.leb_le, !Z.ltb_lt. lia.
Qed.

Lemma inside_step (R C k i : Z) (ρ : run) :
  inside R C k ρ → i ∈ range k →
  0 ≤ run_r ρ + i * run_dr ρ < R ∧ 0 ≤ run_c ρ + i * run_dc ρ < C.
Proof.
  intros (Hr & Hc & Her & Hec) Hi%elem_of_range. split.
  - apply (between_in_range R _ _ (k - 1)); lia.
  - apply (between_in_range C _ _ (k - 1)); lia.
Qed.

Lemma elem_of_enumerate_runs dirs R C k ρ :
  ρ ∈ enumerate_runs dirs R C k ↔
  inside R C k ρ ∧ (run_dr ρ, run_dc ρ) ∈ dirs.
Proof.
  unfold enumerate_runs, inside. split.
  - intros (r & Hρ & Hr%elem_of_range)%list_elem_of_bind.
    apply list_elem_of_bind in Hρ as (c & Hρ & Hc%elem_of_range).
    apply list_elem_of_bind in Hρ as ([dr dc] & Hρ & Hd). simpl in Hρ.
    destruct (in_grid _ _ _ _) eqn:Hin; [|by apply elem_of_nil in Hρ].
    apply list_elem_of_singleton in Hρ as ->. simpl.
    apply in_grid_spec in Hin. tauto.
  - destruct ρ as [r c dr dc]. simpl. intros ((Hr & Hc & Her & Hec) & Hd).
    apply list_elem_of_bind. exists r. split; [|by apply elem_of_range].
    apply list_elem_of_bind. exists c. split; [|by apply elem_of_range].
    apply list_elem_of_bind. exists (dr, dc). split; [|done]. simpl.
    destruct (in_grid _ _ _ _) eqn:Hin; [by left|].
    assert (in_grid R C (r + (k - 1) * dr) (c + (k - 1) * dc) = true)
      by (by apply in_grid_spec).
    congruence.
Qed.

(** ** The inner loops compute the line of a run *)

Lemma foldl_snoc {A B} (h : A → B) (l : list A) (s : list B) :
  foldl (λ s x, s ++ [h x]) s l = s ++ (h <$> l).
Proof.
  revert s. induction l as [|x l IH]; intros s; simpl.
  - by rewrite app_nil_r.
  - by rewrite IH, <- app_assoc.
Qed.

Lemma foldl_mul {A} (h : A → Z) (l : list A) (p : Z) :
  foldl (λ p x, p * h x) p l = p * product (h <$> l).
Proof.
  revert p. induction l as [|x l IH]; intros p.
  - unfold product. simpl. lia.
  - cbn [foldl fmap list_fmap]. rewrite IH.
    unfold product. cbn [foldr]. ring.
Qed.

Section inner_loops.
Context (g : NumberGrid) (k : Z) (ρ : run).
Hypothesis Hrect : rectangular g.
Hypothesis Hin : inside (rows g) (cols g) k ρ.

Lemma run_values_line :
  run_values g k (run_r ρ) (run_c ρ) (run_dr ρ) (run_dc ρ) = Ok (line g k ρ).
Proof.
  unfold run_values, line.
  erewrite for_each_pure; [by rewrite foldl_snoc|].
  intros s i Hi. destruct (inside_step _ _ _ _ _ Hin Hi).
  pose proof (getitem_cell g _ _ Hrect H H0) as Hcell.
  destruct (getitem g _); [|done]. simpl in *. by rewrite Hcell.
Qed.

Lemma run_product_line :
  run_product g k (run_r ρ) (run_c ρ) (run_dr ρ) (run_dc ρ)
  = Ok (product (line g k ρ)).
Proof.
  unfold run_product, line.
  erewrite for_each_pure; [by rewrite foldl_mul, Z.mul_1_l|].
  intros s i Hi. destruct (inside_step _ _ _ _ _ Hin Hi).
  pose proof (getitem_cell g _ _ Hrect H H0) as Hcell.
  destruct (getitem g _); [|done]. simpl in *. by rewrite Hcell.
Qed.
End inner_loops.

(** ** The three nested loops fold over the enumerated runs *)

Lemma foldl_add_to_set {A} (h : A → list Z) (l : list A) (s : gset (list Z)) :
  foldl (λ seen x, {[ h x ]} ∪ seen) s l = list_to_set (h <$> l) ∪ s.
Proof.
  revert s. induction l as [|x l IH]; intros s; simpl.
  - set_solver.
  - rewrite IH. set_solver.
Qed.

Section sweeps.
Context (g : NumberGrid) (R C k : Z) (dirs : list (Z * Z)).

Lemma greatest_product_over_fold :
  (∀ ρ, inside R C k ρ →
     run_product g k (run_r ρ) (run_c ρ) (run_dr ρ) (run_dc ρ)
     = Ok (product (line g k ρ))) →
  greatest_product_over dirs g R C k
  = Ok (foldl update_max None
          (product ∘ line g k <$> enumerate_runs dirs R C k)).
Proof.
  intros Hprod. unfold greatest_product_over, enumerate_runs.
  rewrite foldl_fmap.
  apply for_each_bind; intros s1 r Hr%elem_of_range.
  apply for_each_bind; intros s2 c Hc%elem_of_range.
  apply for_each_bind; intros s3 [dr dc] _.
  unfold product_step. simpl.
  destruct (in_grid _ _ _ _) eqn:Hin; simpl; [|done].
  apply in_grid_spec in Hin.
  pose proof (Hprod (Run r c dr dc)) as Hρ. simpl in Hρ.
  by rewrite Hρ by (unfold inside; simpl; lia).
Qed.

Lemma seen_over_fold :
  (∀ ρ, inside R C k ρ →
     run_values g k (run_r ρ) (run_c ρ) (run_dr ρ) (run_dc ρ)
     = Ok (line g k ρ)) →
  seen_over dirs g R C k
  = Ok (list_to_set (canonical ∘ line g k <$> enumerate_runs dirs R C k)).
Proof.
  intros Hvals. unfold seen_over, enumerate_runs.
  set (add := λ (seen : gset (list Z)) ρ, {[ canonical (line g k ρ) ]} ∪ seen).
  erewrite (for_each_bind _ _ add).
  - f_equal. unfold add. rewrite foldl_add_to_set. apply (right_id_L ∅ (∪)).
  - intros s1 r Hr%elem_of_range.
    apply for_each_bind; intros s2 c Hc%elem_of_range.
    apply for_each_bind; intros s3 [dr dc] _.
    unfold count_step. simpl.
    destruct (in_grid _ _ _ _) eqn:Hin; simpl; [|done].
    apply in_grid_spec in Hin.
    pose proof (Hvals (Run r c dr dc)) as Hρ. simpl in Hρ.
    by rewrite Hρ by (unfold inside; simpl; lia).
Qed.
End sweeps.

(** ** The running maximum *)

Lemma foldl_update_max_Some (a : Z) (l : list Z) :
  ∃ m, foldl update_max (Some a) l = Some m ∧ is_maximum m (a :: l).
Proof.
  revert a. induction l as [|x l IH]; intros a; simpl.
  - exists a. split; [done|]. split; [by left|].
    intros y ->%list_elem_of_singleton. lia.
  - destruct (Z.gtb_spec x a) as [Hgt|Hle].
    + destruct (IH x) as (m & -> & Hin & Hmax). exists m. split; [done|].
      split.
      * right. done.
      * intros y [->|Hy]%elem_of_cons; [|by apply Hmax].
        specialize (Hmax x ltac:(by left)). lia.
    + destruct (IH a) as (m & -> & Hin & Hmax). exists m. split; [done|].
      split.
      * apply elem_of_cons in Hin as [->|Hin]; [by left|by do 2 right].
      * intros y [->|[->|Hy]%elem_of_cons]%elem_of_cons.
        -- apply Hmax. by left.
        -- specialize (Hmax a ltac:(by left)). lia.
        -- apply Hmax. by right.
Qed.

Lemma foldl_update_max (l : list Z) :
  l ≠ [] → ∃ m, foldl update_max None l = Some m ∧ is_maximum m l.
Proof. destruct l as [|a l]; [done|]. intros _. apply foldl_update_max_Some. Qed.

Lemma is_maximum_unique (m m' : Z) (l : list Z) :
  is_maximum m l → is_maximum m' l → m = m'.
Proof. intros [Hin Hmax] [Hin' Hmax']. apply Hmax in Hin'. apply Hmax' in Hin. lia. Qed.

(** ** Validation *)

Lemma getitem_first_row (g : NumberGrid) :
  g ≠ [] → getitem g 0 = Ok (default [] (head g)).
Proof. by destruct g. Qed.

Lemma ragged_check (g : NumberGrid) :
  existsb (λ row, negb (len row =? cols g)) g = true ↔ ragged g.
Proof.
  rewrite existsb_exists. unfold ragged. split.
  - intros (row & Hin%list_elem_of_In & Hne).
    apply negb_true_iff, Z.eqb_neq in Hne. eauto.
  - intros (row & Hin%list_elem_of_In & Hne). exists row. split; [done|].
    by apply negb_true_iff, Z.eqb_neq.
Qed.

Lemma rectangular_check (g : NumberGrid) :
  existsb (λ row, negb (len row =? cols g)) g = false ↔ rectangular g.
Proof.
  rewrite <- not_true_iff_false, ragged_check. unfold ragged, rectangular.
  split.
  - intros Hno row Hin. destruct (decide (len row = cols g)); [done|].
    destruct Hno; eauto.
  - intros Hrect (row & Hin & Hne). by apply Hne, Hrect.
Qed.

Lemma rectangular_not_ragged (g : NumberGrid) : rectangular g → ¬ ragged g.
Proof. intros Hrect (row & Hin & Hne). by apply Hne, Hrect. Qed.

(** Past validation the function returns the greatest product of the
    enumerated runs, or the fallback [0] when there is no run. *)
Lemma find_greatest_product_fold (g : NumberGrid) (k : Z) :
  rectangular g → g ≠ [] → 1 ≤ k →
  find_greatest_product_of_contiguous_integers g k
  = Ok (default 0 (foldl update_max None
          (product ∘ line g k <$> enumerate_runs directions (rows g) (cols g) k))).
Proof.
  intros Hrect Hne Hk. unfold find_greatest_product_of_contiguous_integers.
  destruct (Z.ltb_spec k 1); [lia|].
  destruct (Z.eqb_spec (len g) 0) as [Hlen|_].
  { destruct g; [done|]. unfold len in Hlen. simpl in Hlen. lia. }
  rewrite getitem_first_row by done. simpl.
  fold (cols g). fold (rows g).
  rewrite (proj2 (rectangular_check g)) by done.
  rewrite greatest_product_over_fold by (intros; by apply run_product_line).
  simpl. by destruct (foldl _ _ _).
Qed.

(** ** Cells by position and cells by membership *)

Lemma cell_in_cells (g : NumberGrid) (r c : Z) :
  rectangular g → 0 ≤ r < rows g → 0 ≤ c < cols g → cell g r c ∈ cells g.
Proof.
  intros Hrect Hr Hc.
  destruct (rectangular_row g r Hrect Hr) as (row & Hrow & Hlen).
  unfold len in Hlen.
  destruct (lookup_lt_is_Some_2 row (Z.to_nat c)) as [v Hv]; [lia|].
  unfold cell, cells. rewrite Hrow. simpl. rewrite Hv. simpl.
  apply list_elem_of_join. exists row.
  split; by eapply list_elem_of_lookup_2.
Qed.

Lemma cells_at_position (g : NumberGrid) (v : Z) :
  rectangular g → v ∈ cells g →
  ∃ r c, 0 ≤ r < rows g ∧ 0 ≤ c < cols g ∧ cell g r c = v.
Proof.
  intros Hrect (row & Hv & Hrow)%list_elem_of_join.
  pose proof (Hrect row Hrow) as Hlen. unfold len in Hlen.
  apply list_elem_of_lookup in Hv as [j Hj], Hrow as [i Hi].
  pose proof (lookup_lt_Some _ _ _ Hj). pose proof (lookup_lt_Some _ _ _ Hi).
  exists (Z.of_nat i), (Z.of_nat j). unfold rows, len, cell.
  rewrite !Nat2Z.id. rewrite Hi. simpl. rewrite Hj. simpl. lia.
Qed.

Lemma line_single (g : NumberGrid) (ρ : run) :
  line g 1 ρ = [cell g (run_r ρ) (run_c ρ)].
Proof.
  unfold line, range. rewrite seqZ_cons, seqZ_nil by lia. simpl.
  by rewrite !Z.add_0_r.
Qed.

(** With run length 1 the products are exactly the cell values. *)
Lemma products_single (g : NumberGrid) (v : Z) :
  rectangular g →
  v ∈ (product ∘ line g 1 <$> enumerate_runs directions (rows g) (cols g) 1)
  ↔ v ∈ cells g.
Proof.
  intros Hrect. rewrite list_elem_of_fmap. split.
  - intros (ρ & -> & [(Hr & Hc & _) _]%elem_of_enumerate_runs).
    unfold compose. rewrite line_single. unfold product. simpl.
    rewrite Z.mul_1_r. by apply cell_in_cells.
  - intros (r & c & Hr & Hc & <-)%cells_at_position; [|done].
    exists (Run r c 0 1). split.
    + unfold compose. rewrite line_single. unfold product. simpl. lia.
    + apply elem_of_enumerate_runs. unfold inside, directions. simpl.
      split; [lia|]. by left.
Qed.

(** ** Reversing a run *)

Lemma reverse_range (k : Z) : reverse (range k) = (λ i, k - 1 - i) <$> range k.
Proof.
  unfold range. destruct (Z.le_gt_cases k 0) as [Hk|Hk].
  { by rewrite seqZ_nil. }
  rewrite <- (Z2Nat.id k) by lia. generalize (Z.to_nat k) as n. clear.
  induction n as [|n IH]; [done|].
  rewrite seqZ_S at 1. rewrite reverse_snoc, IH.
  rewrite (seqZ_cons 0 (Z.of_nat (S n))) by lia. rewrite <- (fmap_add_seqZ 1 0).
  replace (Z.pred (Z.of_nat (S n))) with (Z.of_nat n) by lia.
  cbn [fmap list_fmap]. rewrite <- list_fmap_compose. f_equal; [lia|].
  apply list_fmap_ext. intros _ i _. unfold compose. lia.
Qed.

Lemma line_reversed (g : NumberGrid) (k : Z) (ρ : run) :
  line g k (reversed k ρ) = reverse (line g k ρ).
Proof.
  unfold line. rewrite <- fmap_reverse, reverse_range, <- list_fmap_compose.
  apply list_fmap_ext. intros _ i _. simpl. f_equal; ring.
Qed.

Lemma inside_reversed (R C k : Z) (ρ : run) :
  inside R C k ρ → inside R C k (reversed k ρ).
Proof.
  unfold inside. destruct ρ as [r c dr dc]. simpl. intros (Hr & Hc & Her & Hec).
  replace (r + (k - 1) * dr + (k - 1) * - dr) with r by ring.
  replace (c + (k - 1) * dc + (k - 1) * - dc) with c by ring.
  tauto.
Qed.

Lemma product_app (l1 l2 : list Z) : product (l1 ++ l2) = product l1 * product l2.
Proof.
  unfold product. induction l1 as [|x l1 IH]; simpl.
  - by destruct (foldr Z.mul 1 l2).
  - rewrite IH. ring.
Qed.

Lemma product_reverse (l : list Z) : product (reverse l) = product l.
Proof.
  induction l as [|x l IH]; [done|].
  rewrite reverse_cons, product_app, IH. unfold product. simpl. ring.
Qed.

(** Each of the eight directions is a base direction or the reversal of one. *)
Lemma directions8_base (dr dc : Z) :
  (dr, dc) ∈ directions8 → (dr, dc) ∈ directions ∨ (- dr, - dc) ∈ directions.
Proof.
  unfold directions8, directions. intros Hd.
  repeat (apply elem_of_cons in Hd as [Hd|Hd];
          [injection Hd as -> ->; simpl; set_solver|]).
  by apply elem_of_nil in Hd.
Qed.

Lemma directions_directions8 (d : Z * Z) : d ∈ directions → d ∈ directions8.
Proof. unfold directions8. set_solver. Qed.

(** Every run in one of the eight directions is, up to reversal, a run in one
    of the four base directions. *)
Lemma eight_to_four (g : NumberGrid) (R C k : Z) (ρ : run) :
  ρ ∈ enumerate_runs directions8 R C k →
  ∃ ρ', ρ' ∈ enumerate_runs directions R C k ∧
        (line g k ρ' = line g k ρ ∨ line g k ρ' = reverse (line g k ρ)).
Proof.
  intros [Hin Hd]%elem_of_enumerate_runs.
  apply directions8_base in Hd as [Hd|Hd].
  - exists ρ. split; [|by left]. by apply elem_of_enumerate_runs.
  - exists (reversed k ρ). split; [|right; apply line_reversed].
    apply elem_of_enumerate_runs. split; [by apply inside_reversed|done].
Qed.

Lemma four_to_eight (R C k : Z) (ρ : run) :
  ρ ∈ enumerate_runs directions R C k → ρ ∈ enumerate_runs directions8 R C k.
Proof.
  rewrite !elem_of_enumerate_runs. intros [? ?].
  split; [done|]. by apply directions_directions8.
Qed.

Lemma products_eight_four (g : NumberGrid) (R C k x : Z) :
  x ∈ (product ∘ line g k <$> enumerate_runs directions8 R C k) ↔
  x ∈ (product ∘ line g k <$> enumerate_runs directions R C k).
Proof.
  rewrite !list_elem_of_fmap. split.
  - intros (ρ & -> & Hρ).
    destruct (eight_to_four g R C k ρ Hρ) as (ρ' & Hρ' & [Heq|Heq]);
      exists ρ'; (split; [|done]); unfold compose; rewrite Heq; [done|].
    by rewrite product_reverse.
  - intros (ρ & -> & Hρ). exists ρ. split; [done|]. by apply four_to_eight.
Qed.

(** ** Canonical identities *)

Lemma tuple_lt_lexico (a b : list Z) : tuple_lt a b = true ↔ lexico a b.
Proof.
  revert b. induction a as [|x a IH]; intros [|y b]; simpl; try done.
  change (lexico (x :: a) (y :: b)) with (lexico (x, a) (y, b)).
  unfold lexico at 1, prod_lexico. simpl. unfold lexico at 1, Z_lexico.
  destruct (Z.eqb_spec x y) as [->|Hne].
  - rewrite IH. split; [by right|]. intros [?|[_ ?]]; [lia|done].
  - rewrite Z.ltb_lt. split; [by left|]. intros [?|[? _]]; done.
Qed.

Lemma canonical_canonical_identity (s : list Z) :
  canonical s = canonical_identity s.
Proof.
  unfold canonical, canonical_identity, tuple_min.
  destruct (trichotomyT lexico (reverse s) s) as [[Hlt|Heq]|Hgt].
  - by rewrite (proj2 (tuple_lt_lexico _ _) Hlt).
  - destruct (tuple_lt (reverse s) s); [|done]. done.
  - destruct (tuple_lt (reverse s) s) eqn:Hlt; [|done].
    apply tuple_lt_lexico in Hlt.
    destruct (irreflexivity lexico s). by etrans.
Qed.

Lemma canonical_choice (s : list Z) : canonical s = s ∨ canonical s = reverse s.
Proof. unfold canonical, tuple_min. destruct (tuple_lt _ _); auto. Qed.

Lemma canonical_reverse (s : list Z) : canonical (reverse s) = canonical s.
Proof.
  rewrite !canonical_canonical_identity. unfold canonical_identity.
  rewrite reverse_involutive.
  destruct (trichotomyT lexico s (reverse s)) as [[Hlt|Heq]|Hgt];
    destruct (trichotomyT lexico (reverse s) s) as [[Hlt'|Heq']|Hgt'];
    try done.
  - destruct (irreflexivity lexico s). by etrans.
  - destruct (irreflexivity lexico s). by etrans.
Qed.

Lemma canonical_eq_iff (s t : list Z) :
  canonical s = canonical t ↔ s = t ∨ s = reverse t.
Proof.
  split.
  - intros Heq.
    destruct (canonical_choice s) as [Hs|Hs], (canonical_choice t) as [Ht|Ht];
      rewrite Hs, Ht in Heq.
    + by left.
    + by right.
    + right. by rewrite <- Heq, reverse_involutive.
    + left. by apply (inj reverse).
  - intros [->| ->]; [done|apply canonical_reverse].
Qed.

(** ** What the counting function returns on a rectangular grid *)

Lemma count_unique_fold (g : NumberGrid) (k : Z) :
  rectangular g →
  count_unique_combinations_of_length_k g k
  = Ok (Z.of_nat (size (run_identities g k))).
Proof.
  intros Hrect. unfold count_unique_combinations_of_length_k, run_identities.
  destruct (decide (g = [])) as [->|Hne]; [done|].
  assert (0 < len g) as Hlen
    by (destruct g; [done|]; unfold len; simpl; lia).
  apply Z.ltb_lt in Hlen. rewrite Hlen.
  rewrite getitem_first_row by done. simpl.
  fold (cols g). fold (rows g).
  rewrite seen_over_fold by (intros; by apply run_values_line). simpl.
  do 3 f_equal. f_equal. apply list_fmap_ext. intros _ ρ _.
  apply canonical_canonical_identity.
Qed.

(** ** Reflecting the grid *)

Lemma rows_reflect_lr (g : NumberGrid) : rows (reflect_lr g) = rows g.
Proof. unfold rows, len, reflect_lr. by rewrite length_fmap. Qed.

Lemma cols_reflect_lr (g : NumberGrid) : cols (reflect_lr g) = cols g.
Proof.
  unfold cols, len, reflect_lr. destruct g as [|row g]; [done|]. simpl.
  by rewrite length_reverse.
Qed.

Lemma rectangular_reflect_lr (g : NumberGrid) :
  rectangular g → rectangular (reflect_lr g).
Proof.
  intros Hrect row (row' & -> & Hin)%list_elem_of_fmap.
  rewrite cols_reflect_lr, <- (Hrect row' Hin). unfold len.
  by rewrite length_reverse.
Qed.

Lemma reflect_lr_involutive (g : NumberGrid) : reflect_lr (reflect_lr g) = g.
Proof.
  unfold reflect_lr. rewrite <- list_fmap_compose.
  rewrite <- (list_fmap_id g) at 2. apply list_fmap_ext.
  intros _ row _. apply reverse_involutive.
Qed.

Lemma rows_reflect_tb (g : NumberGrid) : rows (reflect_tb g) = rows g.
Proof. unfold rows, len, reflect_tb. by rewrite length_reverse. Qed.

Lemma cols_reflect_tb (g : NumberGrid) :
  rectangular g → cols (reflect_tb g) = cols g.
Proof.
  intros Hrect. unfold reflect_tb. destruct (reverse g) as [|row g'] eqn:Hrev.
  - apply (f_equal reverse) in Hrev. rewrite reverse_involutive in Hrev.
    by rewrite Hrev.
  - unfold cols at 1. simpl. apply Hrect.
    rewrite <- elem_of_reverse, Hrev. by left.
Qed.

Lemma rectangular_reflect_tb (g : NumberGrid) :
  rectangular g → rectangular (reflect_tb g).
Proof.
  intros Hrect row Hin. rewrite cols_reflect_tb by done.
  unfold reflect_tb in Hin. rewrite elem_of_reverse in Hin. by apply Hrect.
Qed.

Lemma reflect_tb_involutive (g : NumberGrid) : reflect_tb (reflect_tb g) = g.
Proof. apply reverse_involutive. Qed.

Lemma cell_reflect_lr (g : NumberGrid) (r c : Z) :
  rectangular g → 0 ≤ r < rows g → 0 ≤ c < cols g →
  cell (reflect_lr g) r c = cell g r (cols g - 1 - c).
Proof.
  intros Hrect Hr Hc.
  destruct (rectangular_row g r Hrect Hr) as (row & Hrow & Hlen).
  unfold len in Hlen. unfold cell, reflect_lr.
  rewrite list_lookup_fmap, Hrow. simpl.
  rewrite reverse_lookup by lia. do 2 f_equal. lia.
Qed.

Lemma cell_reflect_tb (g : NumberGrid) (r c : Z) :
  0 ≤ r < rows g → cell (reflect_tb g) r c = cell g (rows g - 1 - r) c.
Proof.
  intros Hr. unfold rows, len in *. unfold cell, reflect_tb.
  rewrite reverse_lookup by lia. do 3 f_equal. lia.
Qed.

Section mirrored_runs.
Context (g : NumberGrid) (k : Z) (ρ : run).
Hypothesis Hrect : rectangular g.
Hypothesis Hin : inside (rows g) (cols g) k ρ.

Lemma line_reflect_lr :
  line (reflect_lr g) k ρ = line g k (mirror_lr (cols g) ρ).
Proof.
  unfold line. apply list_fmap_ext. intros n i Hi%list_elem_of_lookup_2.
  destruct (inside_step _ _ _ _ _ Hin Hi) as [Hr Hc].
  rewrite cell_reflect_lr by done. simpl. f_equal. ring.
Qed.

Lemma line_reflect_tb :
  line (reflect_tb g) k ρ = line g k (mirror_tb (rows g) ρ).
Proof.
  unfold line. apply list_fmap_ext. intros n i Hi%list_elem_of_lookup_2.
  destruct (inside_step _ _ _ _ _ Hin Hi) as [Hr Hc].
  rewrite cell_reflect_tb by done. simpl. f_equal. ring.
Qed.

Lemma inside_mirror_lr : inside (rows g) (cols g) k (mirror_lr (cols g) ρ).
Proof.
  destruct Hin as (Hr & Hc & Her & Hec). unfold inside. simpl.
  replace (cols g - 1 - run_c ρ + (k - 1) * - run_dc ρ)
    with (cols g - 1 - (run_c ρ + (k - 1) * run_dc ρ)) by ring.
  lia.
Qed.

Lemma inside_mirror_tb : inside (rows g) (cols g) k (mirror_tb (rows g) ρ).
Proof.
  destruct Hin as (Hr & Hc & Her & Hec). unfold inside. simpl.
  replace (rows g - 1 - run_r ρ + (k - 1) * - run_dr ρ)
    with (rows g - 1 - (run_r ρ + (k - 1) * run_dr ρ)) by ring.
  lia.
Qed.
End mirrored_runs.

Lemma directions_mirrored (dr dc : Z) :
  (dr, dc) ∈ directions →
  (dr, - dc) ∈ directions8 ∧ (- dr, dc) ∈ directions8.
Proof.
  unfold directions8, directions. intros Hd.
  repeat (apply elem_of_cons in Hd as [Hd|Hd];
          [injection Hd as -> ->; simpl; set_solver|]).
  by apply elem_of_nil in Hd.
Qed.

(** A grid whose base-direction runs are all eight-direction runs of [g],
    cell for cell, has no identity that [g] lacks. *)
Lemma run_identities_subseteq (g g' : NumberGrid) (k : Z) (φ : run → run) :
  rows g' = rows g → cols g' = cols g →
  (∀ ρ, ρ ∈ enumerate_runs directions (rows g) (cols g) k →
        φ ρ ∈ enumerate_runs directions8 (rows g) (cols g) k ∧
        line g' k ρ = line g k (φ ρ)) →
  run_identities g' k ⊆ run_identities g k.
Proof.
  intros HR HC Hφ x. unfold run_identities. rewrite HR, HC.
  rewrite !elem_of_list_to_set, !list_elem_of_fmap.
  intros (ρ & -> & Hρ). destruct (Hφ ρ Hρ) as [Hφρ Hline].
  destruct (eight_to_four g _ _ _ _ Hφρ) as (ρ' & Hρ' & Heq).
  exists ρ'. split; [|done]. unfold compose.
  rewrite <- !canonical_canonical_identity, Hline.
  apply canonical_eq_iff. destruct Heq as [->| ->]; [by left|right].
  by rewrite reverse_involutive.
Qed.

Lemma run_identities_reflect_lr_subseteq (g : NumberGrid) (k : Z) :
  rectangular g → run_identities (reflect_lr g) k ⊆ run_identities g k.
Proof.
  intros Hrect.
  apply (run_identities_subseteq g _ k (mirror_lr (cols g)));
    [apply rows_reflect_lr|apply cols_reflect_lr|].
  intros ρ [Hin Hd]%elem_of_enumerate_runs. split.
  - apply elem_of_enumerate_runs. split; [by apply inside_mirror_lr|].
    by apply directions_mirrored.
  - by apply line_reflect_lr.
Qed.

Lemma run_identities_reflect_tb_subseteq (g : NumberGrid) (k : Z) :
  rectangular g → run_identities (reflect_tb g) k ⊆ run_identities g k.
Proof.
  intros Hrect.
  apply (run_identities_subseteq g _ k (mirror_tb (rows g)));
    [apply rows_reflect_tb|by apply cols_reflect_tb|].
  intros ρ [Hin Hd]%elem_of_enumerate_runs. split.
  - apply elem_of_enumerate_runs. split; [by apply inside_mirror_tb|].
    by apply directions_mirrored.
  - by apply line_reflect_tb.
Qed.

Lemma run_identities_reflect_lr (g : NumberGrid) (k : Z) :
  rectangular g → run_identities (reflect_lr g) k = run_identities g k.
Proof.
  intros Hrect. apply (anti_symm (⊆)).
  - by apply run_identities_reflect_lr_subseteq.
  - rewrite <- (reflect_lr_involutive g) at 1.
    by apply run_identities_reflect_lr_subseteq, rectangular_reflect_lr.
Qed.

Lemma run_identities_reflect_tb (g : NumberGrid) (k : Z) :
  rectangular g → run_identities (reflect_tb g) k = run_identities g k.
Proof.
  intros Hrect. apply (anti_symm (⊆)).
  - by apply run_identities_reflect_tb_subseteq.
  - rewrite <- (reflect_tb_involutive g) at 1.
    by apply run_identities_reflect_tb_subseteq, rectangular_reflect_tb.
Qed.

(** ** The only exception the traversal can raise is [IndexError] *)

Lemma getitem_index_error_only {A} (l : list A) (i : Z) :
  index_error_only (getitem l i).
Proof.
  intros msg. unfold getitem. destruct (_ && _); [|done].
  by destruct (l !! _).
Qed.

Lemma bind_index_error_only {A B} (m : result A) (f : A → result B) :
  index_error_only m → (∀ a, index_error_only (f a)) →
  index_error_only (m ≫= f).
Proof.
  intros Hm Hf msg. destruct m as [a|e]; simpl; [apply Hf|].
  intros Heq. apply (Hm msg). congruence.
Qed.

Lemma for_each_index_error_only {A S} (body : S → A → result S)
    (xs : list A) (s : S) :
  (∀ s x, index_error_only (body s x)) → index_error_only (for_each body xs s).
Proof.
  intros Hb. revert s. induction xs as [|x xs IH]; intros s msg; simpl; [done|].
  destruct (body s x) as [s'|e] eqn:Hbody; [apply IH|].
  rewrite <- Hbody. apply Hb.
Qed.

Lemma count_unique_index_error_only (g : NumberGrid) (k : Z) :
  index_error_only (count_unique_combinations_of_length_k g k).
Proof.
  unfold count_unique_combinations_of_length_k.
  apply bind_index_error_only.
  { destruct (0 <? len g); [|done].
    apply bind_index_error_only; [apply getitem_index_error_only|done]. }
  intros C. apply bind_index_error_only; [|done].
  unfold seen_over.
  apply for_each_index_error_only; intros s1 r.
  apply for_each_index_error_only; intros s2 c.
  apply for_each_index_error_only; intros s3 [dr dc].
  unfold count_step. destruct (negb _); [done|].
  apply bind_index_error_only; [|done].
  apply for_each_index_error_only. intros seq i.
  apply bind_index_error_only; [apply getitem_index_error_only|].
  intros row. apply bind_index_error_only; [apply getitem_index_error_only|done].
Qed.

Lemma rectangular_or_ragged (g : NumberGrid) : rectangular g ∨ ragged g.
Proof.
  destruct (existsb (λ row, negb (len row =? cols g)) g) eqn:Hcheck.
  - right. by apply ragged_check.
  - left. by apply rectangular_check.
Qed.

(** With [k < 1] no cell is read and every run has the empty sequence. *)
Lemma count_unique_short (g : NumberGrid) (k : Z) :
  k < 1 → ∃ n, count_unique_combinations_of_length_k g k = Ok n ∧ 0 ≤ n ≤ 1.
Proof.
  intros Hk. unfold count_unique_combinations_of_length_k.
  assert (∃ C, (if 0 <? len g then row0 ← getitem g 0; Ok (len row0) else Ok 0)
               = Ok C) as [C ->].
  { destruct g as [|row0 g]; [by exists 0|]. by exists (len row0). }
  simpl. rewrite seen_over_fold; simpl.
  - eexists. split; [done|]. split; [lia|].
    set (ids := list_to_set _).
    assert (ids ⊆ ({[ [] ]} : gset (list Z))) as Hsub.
    { intros x (ρ & -> & _)%elem_of_list_to_set%list_elem_of_fmap.
      unfold compose, line, range. rewrite seqZ_nil by lia.
      by apply elem_of_singleton. }
    apply subseteq_size in Hsub. rewrite size_singleton in Hsub. lia.
  - intros ρ _. unfold run_values, line, range. by rewrite seqZ_nil by lia.
Qed.

(** ** The traversal enumerates the reference runs *)

Lemma filter_bind {A B} (P : B → Prop) `{!∀ x, Decision (P x)}
    (f : A → list B) (l : list A) :
  filter P (l ≫= f) = l ≫= λ x, filter P (f x).
Proof.
  induction l as [|x l IH]; [done|].
  by rewrite !bind_cons, filter_app, IH.
Qed.

Lemma bind_ext_in {A B} (f h : A → list B) (l : list A) :
  (∀ x, x ∈ l → f x = h x) → l ≫= f = l ≫= h.
Proof.
  intros Hfh. induction l as [|x l IH]; [done|].
  rewrite !bind_cons, Hfh by left. f_equal. apply IH.
  intros y Hy. apply Hfh. by right.
Qed.

Lemma elem_of_reference_runs (R C k : Z) (ρ : run) :
  ρ ∈ reference_runs R C k ↔
  inside R C k ρ ∧ (run_dr ρ, run_dc ρ) ∈ base_directions.
Proof.
  unfold reference_runs. rewrite list_elem_of_filter. split.
  - intros [Hin (r & Hρ & _)%list_elem_of_bind]. split; [done|].
    apply list_elem_of_bind in Hρ as (c & Hρ & _).
    apply list_elem_of_bind in Hρ as ([dr dc] & Hρ & Hd).
    by apply list_elem_of_singleton in Hρ as ->.
  - intros [Hin Hd]. split; [done|].
    destruct Hin as (Hr & Hc & _). destruct ρ as [r c dr dc].
    simpl in Hr, Hc, Hd.
    apply list_elem_of_bind. exists r. split; [|apply elem_of_seqZ; lia].
    apply list_elem_of_bind. exists c. split; [|apply elem_of_seqZ; lia].
    apply list_elem_of_bind. exists (dr, dc). split; [|done]. by left.
Qed.

(** The loops of both functions visit exactly the reference runs, each
    once and in the same order. *)
Lemma enumerate_runs_reference (R C k : Z) :
  enumerate_runs directions R C k = reference_runs R C k.
Proof.
  unfold enumerate_runs, reference_runs, range.
  rewrite filter_bind. apply bind_ext_in. intros r Hr%elem_of_seqZ.
  rewrite filter_bind. apply bind_ext_in. intros c Hc%elem_of_seqZ.
  rewrite filter_bind. apply bind_ext_in. intros [dr dc] _. simpl.
  rewrite filter_singleton; [|exact []].
  destruct (in_grid _ _ _ _) eqn:Hin.
  - apply in_grid_spec in Hin.
    rewrite decide_True; [done|]. unfold inside. simpl. lia.
  - rewrite decide_False; [done|]. unfold inside. simpl. intros Hinside.
    assert (in_grid R C (r + (k - 1) * dr) (c + (k - 1) * dc) = true)
      by (apply in_grid_spec; lia).
    congruence.
Qed.

Lemma run_identities_reference (g : NumberGrid) (k : Z) :
  run_identities g k = reference_identities g k.
Proof.
  unfold run_identities, reference_identities.
  by rewrite enumerate_runs_reference.
Qed.

(** ** Counting the runs that fit *)

Lemma length_bind_sum {A B} (f : A → list B) (l : list A) :
  length (l ≫= f) = sum_list_with (λ x, length (f x)) l.
Proof.
  induction l as [|x l IH]; [done|].
  rewrite bind_cons, length_app, IH. done.
Qed.

Lemma sum_list_with_ext_in {A} (f h : A → nat) (l : list A) :
  (∀ x, x ∈ l → f x = h x) → sum_list_with f l = sum_list_with h l.
Proof.
  intros Hfh. induction l as [|x l IH]; [done|]. simpl.
  rewrite Hfh by left. f_equal. apply IH. intros y Hy. apply Hfh. by right.
Qed.

Lemma sum_list_with_add {A} (f h : A → nat) (l : list A) :
  sum_list_with (λ x, (f x + h x)%nat) l
  = (sum_list_with f l + sum_list_with h l)%nat.
Proof. induction l as [|x l IH]; [done|]. simpl. rewrite IH. lia. Qed.

Lemma sum_list_with_mul_l {A} (a : nat) (f : A → nat) (l : list A) :
  sum_list_with (λ x, (a * f x)%nat) l = (a * sum_list_with f l)%nat.
Proof.
  induction l as [|x l IH]; simpl; [by rewrite Nat.mul_0_r|].
  by rewrite IH, Nat.mul_add_distr_l.
Qed.

Lemma sum_list_with_mul_r {A} (b : nat) (f : A → nat) (l : list A) :
  sum_list_with (λ x, (f x * b)%nat) l = (sum_list_with f l * b)%nat.
Proof.
  induction l as [|x l IH]; simpl; [done|].
  by rewrite IH, Nat.mul_add_distr_r.
Qed.

(** How many [i] in [0 .. n-1] have [i + a] in [0 .. n-1] as well. *)
Definition hits (n a : Z) : nat :=
  sum_list_with (λ i, Nat.b2n ((0 <=? i + a) && (i + a <? n))) (seqZ 0 n).

Lemma count_interval (lo hi : Z) (m : nat) :
  sum_list_with (λ i, Nat.b2n ((lo <=? i) && (i <? hi))) (seqZ 0 (Z.of_nat m))
  = Z.to_nat (Z.min hi (Z.of_nat m) - Z.max lo 0).
Proof.
  induction m as [|m IH].
  { simpl. lia. }
  rewrite seqZ_S, sum_list_with_app, IH. cbn [sum_list_with].
  rewrite Z.add_0_l.
  destruct (Z.leb_spec lo (Z.of_nat m)), (Z.ltb_spec (Z.of_nat m) hi);
    cbn [andb Nat.b2n]; lia.
Qed.

Lemma hits_eq (n a : Z) : 0 ≤ n → hits n a = Z.to_nat (n - Z.abs a).
Proof.
  intros Hn. unfold hits.
  rewrite (sum_list_with_ext_in _
             (λ i, Nat.b2n ((- a <=? i) && (i <? n - a)))).
  - pose proof (count_interval (- a) (n - a) (Z.to_nat n)) as Hcount.
    rewrite Z2Nat.id in Hcount by done. rewrite Hcount. lia.
  - intros i _. f_equal.
    destruct (Z.leb_spec 0 (i + a)), (Z.leb_spec (- a) i); try lia;
      destruct (Z.ltb_spec (i + a) n), (Z.ltb_spec i (n - a)); try lia; done.
Qed.

(** The end-cell test is a test on the row times a test on the column. *)
Lemma sum_in_grid (R C a b : Z) :
  sum_list_with
    (λ r, sum_list_with (λ c, Nat.b2n (in_grid R C (r + a) (c + b)))
                        (seqZ 0 C))
    (seqZ 0 R)
  = (hits R a * hits C b)%nat.
Proof.
  unfold hits. rewrite <- sum_list_with_mul_r.
  apply sum_list_with_ext_in. intros r _.
  rewrite <- sum_list_with_mul_l.
  apply sum_list_with_ext_in. intros c _. unfold in_grid.
  by destruct (0 <=? r + a), (r + a <? R), (0 <=? c + b), (c + b <? C).
Qed.

Lemma length_enumerate_runs_directions (R C k : Z) :
  length (enumerate_runs directions R C k)
  = (hits R 0 * hits C (k - 1) + hits R (k - 1) * hits C 0
     + hits R (k - 1) * hits C (k - 1)
     + hits R (k - 1) * hits C (- (k - 1)))%nat.
Proof.
  unfold enumerate_runs, range. rewrite length_bind_sum.
  rewrite (sum_list_with_ext_in _
    (λ r, (sum_list_with
             (λ c, Nat.b2n (in_grid R C (r + 0) (c + (k - 1)))) (seqZ 0 C)
           + sum_list_with
               (λ c, Nat.b2n (in_grid R C (r + (k - 1)) (c + 0))) (seqZ 0 C)
           + sum_list_with
               (λ c, Nat.b2n (in_grid R C (r + (k - 1)) (c + (k - 1))))
               (seqZ 0 C)
           + sum_list_with
               (λ c, Nat.b2n (in_grid R C (r + (k - 1)) (c + - (k - 1))))
               (seqZ 0 C))%nat)).
  { by rewrite !sum_list_with_add, !sum_in_grid. }
  intros r _. rewrite length_bind_sum, <- !sum_list_with_add.
  apply sum_list_with_ext_in. intros c _.
  unfold directions. rewrite !bind_cons, !length_app. simpl.
  rewrite Z.mul_0_r, Z.mul_1_r.
  replace ((k - 1) * -1) with (- (k - 1)) by lia.
  by destruct (in_grid R C (r + 0) (c + (k - 1))),
       (in_grid R C (r + (k - 1)) (c + 0)),
       (in_grid R C (r + (k - 1)) (c + (k - 1))),
       (in_grid R C (r + (k - 1)) (c + - (k - 1))).
Qed.

Lemma reference_runs_fitting (R C k : Z) :
  0 ≤ R → 0 ≤ C → 1 ≤ k →
  Z.of_nat (length (reference_runs R C k)) = fitting_runs R C k.
Proof.
  intros HR HC Hk.
  rewrite <- enumerate_runs_reference, length_enumerate_runs_directions.
  rewrite !Nat2Z.inj_add, !Nat2Z.inj_mul, !hits_eq by done.
  replace (Z.of_nat (Z.to_nat (R - Z.abs 0))) with R by lia.
  replace (Z.of_nat (Z.to_nat (C - Z.abs 0))) with C by lia.
  replace (Z.of_nat (Z.to_nat (R - Z.abs (k - 1))))
    with (Z.max 0 (R - k + 1)) by lia.
  replace (Z.of_nat (Z.to_nat (C - Z.abs (k - 1))))
    with (Z.max 0 (C - k + 1)) by lia.
  replace (Z.of_nat (Z.to_nat (C - Z.abs (- (k - 1)))))
    with (Z.max 0 (C - k + 1)) by lia.
  unfold fitting_runs. ring.
Qed.

(** ** The functions on small grids *)

Example one_cell_grid :
  find_greatest_product_of_contiguous_integers [[5]] 1 = Ok 5 ∧
  count_unique_combinations_of_length_k [[5]] 1 = Ok 1.
Proof. split; reflexivity. Qed.

Example two_by_two_grid :
  find_greatest_product_of_contiguous_integers [[1; 2]; [3; 4]] 2 = Ok 12 ∧
  count_unique_combinations_of_length_k [[1; 2]; [3; 4]] 2 = Ok 6.
Proof. split; reflexivity. Qed.

(** Six runs of two cells each: twelve multiplications. *)
Example two_by_two_grid_counted :
  find_greatest_product_counted [[1; 2]; [3; 4]] 2 = (Ok 12, 12%nat).
Proof. reflexivity. Qed.

(** A negative index is never produced by the traversal, but [getitem]
    follows Python there too. *)
Example getitem_negative :
  getitem [10; 20; 30] (-1) = Ok 30 ∧ getitem [10; 20; 30] 3 = Raise IndexError
  ∧ getitem [10; 20; 30] (-4) = Raise IndexError.
Proof. repeat split; reflexivity. Qed.

Example canonical_picks_smaller :
  canonical [3; 1; 2] = [2; 1; 3] ∧ canonical [1; 2; 3] = [1; 2; 3].
Proof. split; reflexivity. Qed.

(** In the two by two grid six runs of length two fit, in the sample grid
    288 runs of length three. *)
Example fitting_runs_examples :
  fitting_runs 2 2 2 = 6 ∧ fitting_runs 10 10 3 = 288 ∧
  length (reference_runs 2 2 2) = 6%nat.
Proof. repeat split; reflexivity. Qed.

(** * The claims *)

(** ** Product search *)

(** C5: on a rectangular grid with at least one row, a run length [k]
    greater than both the row count and the column count fits no run in any
    direction, and the function returns the fallback value 0 instead of
    raising. *)
Theorem find_greatest_product_no_run_fallback (g : NumberGrid) (k : Z) :
  rectangular g → g ≠ [] → rows g < k → cols g < k →
  find_greatest_product_of_contiguous_integers g k = Ok 0.
Proof.
  intros Hrect Hne HR HC.
  assert (0 < rows g) by (destruct g; [done|]; unfold rows, len; simpl; lia).
  rewrite find_greatest_product_fold by (done || lia).
  replace (enumerate_runs directions (rows g) (cols g) k) with (@nil run); [done|].
  symmetry. apply elem_of_nil_inv. intros ρ [Hin Hd]%elem_of_enumerate_runs.
  destruct Hin as (Hr & Hc & Her & Hec). unfold directions in Hd.
  repeat (apply elem_of_cons in Hd as [Hd|Hd]; [injection Hd as Hdr Hdc; lia|]).
  by apply elem_of_nil in Hd.
Qed.

Lemma find_greatest_product_no_run_fallback_witness :
  find_greatest_product_of_contiguous_integers [[1; 2]; [3; 4]] 3 = Ok 0.
Proof.
  apply (find_greatest_product_no_run_fallback [[1; 2]; [3; 4]] 3).
  - apply rectangular_check. reflexivity.
  - discriminate.
  - reflexivity.
  - reflexivity.
Defined.

(** C7: on a rectangular grid with at least one row,
    [find_greatest_product_of_contiguous_integers g 1] returns a value that
    bounds every cell of the grid and, as soon as the grid has a cell, is
    itself one of the cell values: the maximum single-cell value. *)
Theorem find_greatest_product_single_cell (g : NumberGrid) :
  rectangular g → g ≠ [] →
  ∃ m, find_greatest_product_of_contiguous_integers g 1 = Ok m ∧
       (∀ v, v ∈ cells g → v ≤ m) ∧
       (cells g ≠ [] → m ∈ cells g).
Proof.
  intros Hrect Hne. rewrite find_greatest_product_fold by (done || lia).
  set (ps := product ∘ line g 1 <$> _).
  assert (Hps : ∀ v, v ∈ ps ↔ v ∈ cells g) by (intros; by apply products_single).
  destruct (decide (ps = [])) as [Hnil|Hsome].
  - assert (cells g = []) as Hcells.
    { apply elem_of_nil_inv. intros v Hv%Hps. rewrite Hnil in Hv.
      by apply elem_of_nil in Hv. }
    exists 0. rewrite Hnil, Hcells. split; [done|]. split; [|done].
    by intros v Hv%elem_of_nil.
  - destruct (foldl_update_max ps Hsome) as (m & -> & Hin & Hmax).
    exists m. split; [done|]. split.
    + intros v Hv%Hps. by apply Hmax.
    + intros _. by apply Hps.
Qed.

Lemma find_greatest_product_single_cell_witness :
  ∃ m, find_greatest_product_of_contiguous_integers [[1; 5]; [3; 4]] 1 = Ok m ∧
       (∀ v, v ∈ cells [[1; 5]; [3; 4]] → v ≤ m) ∧
       (cells [[1; 5]; [3; 4]] ≠ [] → m ∈ cells [[1; 5]; [3; 4]]).
Proof.
  apply (find_greatest_product_single_cell [[1; 5]; [3; 4]]).
  - apply rectangular_check. reflexivity.
  - discriminate.
Defined.

(** ** The sample grid *)

(** C8: on the 10x10 sample grid with run length 3 the unique-run count is
    288 and the greatest product is 667755. *)
Theorem sample_grid_results :
  count_unique_combinations_of_length_k sample_grid 3 = Ok 288 ∧
  find_greatest_product_of_contiguous_integers sample_grid 3 = Ok 667755.
Proof. split; vm_compute; reflexivity. Qed.

(** ** Unique-run counting without validation *)

(** C10: on the grid with zero rows the count is 0 for every [k], and
    nothing is raised: the column count is taken as 0 and both position loops
    are empty. *)
Theorem count_unique_empty_grid (k : Z) :
  count_unique_combinations_of_length_k [] k = Ok 0.
Proof. reflexivity. Qed.

(** C1: on a rectangular grid with at least one row and one column and a run
    length [1 <= k <= min(rows, cols)], the function returns the maximum of
    the products of all runs of length [k] in the eight directions; that
    maximum is also the maximum over the four base directions, and running
    the same loops over all eight directions yields the same value. *)
Theorem find_greatest_product_is_maximum (g : NumberGrid) (k : Z) :
  rectangular g → 1 ≤ rows g → 1 ≤ cols g → 1 ≤ k ≤ Z.min (rows g) (cols g) →
  ∃ m,
    find_greatest_product_of_contiguous_integers g k = Ok m ∧
    is_maximum m
      (product ∘ line g k <$> enumerate_runs directions8 (rows g) (cols g) k) ∧
    is_maximum m
      (product ∘ line g k <$> enumerate_runs directions (rows g) (cols g) k) ∧
    greatest_product_over directions8 g (rows g) (cols g) k = Ok (Some m).
Proof.
  intros Hrect HR HC Hk.
  assert (g ≠ []) as Hne by (intros ->; unfold rows, len in HR; simpl in HR; lia).
  rewrite find_greatest_product_fold by (done || lia).
  rewrite (greatest_product_over_fold g _ _ k directions8)
    by (intros; by apply run_product_line).
  set (P4 := product ∘ line g k <$> enumerate_runs directions _ _ k).
  set (P8 := product ∘ line g k <$> enumerate_runs directions8 _ _ k).
  assert (H84 : ∀ x, x ∈ P8 ↔ x ∈ P4) by (intros; apply products_eight_four).
  assert (P4 ≠ []) as HP4.
  { assert (Run 0 0 0 1 ∈ enumerate_runs directions (rows g) (cols g) k) as Hρ.
    { apply elem_of_enumerate_runs. unfold inside, directions. simpl.
      split; [lia|]. by left. }
    intros Hnil. apply (list_elem_of_fmap_2 (product ∘ line g k)) in Hρ.
    fold P4 in Hρ. rewrite Hnil in Hρ. by apply elem_of_nil in Hρ. }
  assert (P8 ≠ []) as HP8.
  { intros Hnil. destruct P4 as [|x P4']; [done|].
    assert (x ∈ P8) as Hx by (apply H84; by left).
    rewrite Hnil in Hx. by apply elem_of_nil in Hx. }
  destruct (foldl_update_max P4 HP4) as (m & -> & Hin & Hmax).
  destruct (foldl_update_max P8 HP8) as (m' & -> & Hin' & Hmax').
  assert (is_maximum m P8) as Hm8.
  { split; [by apply H84|]. intros x Hx%H84. by apply Hmax. }
  exists m. split; [done|]. split; [done|]. split; [by split|].
  do 2 f_equal. by apply (is_maximum_unique m' m P8).
Qed.

Lemma find_greatest_product_is_maximum_witness :
  ∃ m,
    find_greatest_product_of_contiguous_integers [[1; 2]; [3; 4]] 2 = Ok m ∧
    is_maximum m
      (product ∘ line [[1; 2]; [3; 4]] 2 <$> enumerate_runs directions8 2 2 2) ∧
    is_maximum m
      (product ∘ line [[1; 2]; [3; 4]] 2 <$> enumerate_runs directions 2 2 2) ∧
    greatest_product_over directions8 [[1; 2]; [3; 4]] 2 2 2 = Ok (Some m).
Proof.
  apply (find_greatest_product_is_maximum [[1; 2]; [3; 4]] 2).
  - apply rectangular_check. reflexivity.
  - discriminate.
  - discriminate.
  - split; discriminate.
Defined.

(** ** Unique-run counting on rectangular grids *)

(** C2: on a rectangular grid with at least one row and for [k >= 1] the
    function returns the cardinality of the set of canonical identities of
    the runs of length [k] that start at any cell, go in one of the four
    base directions (right, down, down-right, down-left) and stay in
    bounds: a sequence is in that set exactly when it is the canonical
    identity, the lexicographic minimum of the value sequence and its
    reversal, of such a run.  Two runs have the same identity, and so are
    counted once, iff their value sequences are equal directly or after
    reversal. *)
Theorem count_unique_is_cardinality (g : NumberGrid) (k : Z) :
  rectangular g → g ≠ [] → 1 ≤ k →
  count_unique_combinations_of_length_k g k
  = Ok (Z.of_nat (size (reference_identities g k))) ∧
  (∀ x, x ∈ reference_identities g k ↔
        ∃ ρ, inside (rows g) (cols g) k ρ ∧
             (run_dr ρ, run_dc ρ) ∈ [(0, 1); (1, 0); (1, 1); (1, -1)] ∧
             x = canonical_identity (line g k ρ)) ∧
  ∀ ρ1 ρ2,
    canonical_identity (line g k ρ1) = canonical_identity (line g k ρ2) ↔
    line g k ρ1 = line g k ρ2 ∨ line g k ρ1 = reverse (line g k ρ2).
Proof.
  intros Hrect _ _. split; [|split].
  - rewrite count_unique_fold by done. by rewrite run_identities_reference.
  - intros x. unfold reference_identities.
    rewrite elem_of_list_to_set, list_elem_of_fmap. split.
    + intros (ρ & -> & [Hin Hd]%elem_of_reference_runs). by exists ρ.
    + intros (ρ & Hin & Hd & ->). exists ρ. split; [done|].
      by apply elem_of_reference_runs.
  - intros ρ1 ρ2. rewrite <- !canonical_canonical_identity.
    apply canonical_eq_iff.
Qed.

Lemma count_unique_is_cardinality_witness :
  count_unique_combinations_of_length_k [[1; 2]; [2; 1]] 2
  = Ok (Z.of_nat (size (reference_identities [[1; 2]; [2; 1]] 2))) ∧
  (∀ x, x ∈ reference_identities [[1; 2]; [2; 1]] 2 ↔
        ∃ ρ, inside (rows [[1; 2]; [2; 1]]) (cols [[1; 2]; [2; 1]]) 2 ρ ∧
             (run_dr ρ, run_dc ρ) ∈ [(0, 1); (1, 0); (1, 1); (1, -1)] ∧
             x = canonical_identity (line [[1; 2]; [2; 1]] 2 ρ)) ∧
  ∀ ρ1 ρ2,
    canonical_identity (line [[1; 2]; [2; 1]] 2 ρ1)
    = canonical_identity (line [[1; 2]; [2; 1]] 2 ρ2) ↔
    line [[1; 2]; [2; 1]] 2 ρ1 = line [[1; 2]; [2; 1]] 2 ρ2 ∨
    line [[1; 2]; [2; 1]] 2 ρ1 = reverse (line [[1; 2]; [2; 1]] 2 ρ2).
Proof.
  apply (count_unique_is_cardinality [[1; 2]; [2; 1]] 2).
  - apply rectangular_check. reflexivity.
  - discriminate.
  - discriminate.
Defined.

Lemma size_list_to_set_fmap `{Countable A, Countable B}
    (f : A → B) `{!Inj (=) (=) f} (l : list A) :
  size (list_to_set (f <$> l) : gset B) = size (list_to_set l : gset A).
Proof.
  assert (list_to_set (f <$> l) = (list_to_set (f <$> remove_dups l) : gset B))
    as ->.
  { apply set_eq. intros x. rewrite !elem_of_list_to_set, !list_elem_of_fmap.
    by setoid_rewrite elem_of_remove_dups. }
  assert (list_to_set l = (list_to_set (remove_dups l) : gset A)) as ->.
  { apply set_eq. intros x. by rewrite !elem_of_list_to_set, elem_of_remove_dups. }
  rewrite !size_list_to_set, length_fmap; [done| |].
  - apply NoDup_remove_dups.
  - apply NoDup_fmap_2; [done|]. apply NoDup_remove_dups.
Qed.

Lemma canonical_identity_single (v : Z) : canonical_identity [v] = [v].
Proof.
  rewrite <- canonical_canonical_identity. unfold canonical, tuple_min. simpl.
  by rewrite Z.eqb_refl.
Qed.

(** C9: on a rectangular grid with at least one row, run length 1 counts
    the distinct integer values occurring in the grid. *)
Theorem count_unique_single_cell (g : NumberGrid) :
  rectangular g → g ≠ [] →
  count_unique_combinations_of_length_k g 1
  = Ok (Z.of_nat (size (list_to_set (cells g) : gset Z))).
Proof.
  intros Hrect _. rewrite count_unique_fold by done. do 2 f_equal.
  rewrite <- (size_list_to_set_fmap (λ v : Z, [v])). f_equal.
  unfold run_identities. apply set_eq. intros x.
  rewrite !elem_of_list_to_set, !list_elem_of_fmap. split.
  - intros (ρ & -> & [(Hr & Hc & _) _]%elem_of_enumerate_runs).
    unfold compose. rewrite line_single, canonical_identity_single.
    eexists. split; [done|]. by apply cell_in_cells.
  - intros (v & -> & (r & c & Hr & Hc & <-)%cells_at_position); [|done].
    exists (Run r c 0 1). unfold compose.
    rewrite line_single, canonical_identity_single. split; [done|].
    apply elem_of_enumerate_runs. unfold inside, directions. simpl.
    split; [lia|]. by left.
Qed.

Lemma count_unique_single_cell_witness :
  count_unique_combinations_of_length_k [[1; 5]; [5; 4]] 1
  = Ok (Z.of_nat (size (list_to_set (cells [[1; 5]; [5; 4]]) : gset Z))).
Proof.
  apply (count_unique_single_cell [[1; 5]; [5; 4]]).
  - apply rectangular_check. reflexivity.
  - discriminate.
Defined.

(** C6: on a rectangular grid with at least one row and for [k >= 1],
    mirroring the grid left-right (every row reversed) or top-bottom (the
    rows in reverse order) leaves the set of canonical run identities, and
    with it the returned count, unchanged. *)
Theorem count_unique_reflection_invariant (g : NumberGrid) (k : Z) :
  rectangular g → g ≠ [] → 1 ≤ k →
  (run_identities (reflect_lr g) k = run_identities g k ∧
   count_unique_combinations_of_length_k (reflect_lr g) k
   = count_unique_combinations_of_length_k g k) ∧
  (run_identities (reflect_tb g) k = run_identities g k ∧
   count_unique_combinations_of_length_k (reflect_tb g) k
   = count_unique_combinations_of_length_k g k).
Proof.
  intros Hrect _ _.
  rewrite !count_unique_fold
    by (done || by apply rectangular_reflect_lr || by apply rectangular_reflect_tb).
  by rewrite run_identities_reflect_lr, run_identities_reflect_tb.
Qed.

Lemma count_unique_reflection_invariant_witness :
  (run_identities (reflect_lr [[1; 2; 3]; [4; 5; 6]]) 2
   = run_identities [[1; 2; 3]; [4; 5; 6]] 2 ∧
   count_unique_combinations_of_length_k (reflect_lr [[1; 2; 3]; [4; 5; 6]]) 2
   = count_unique_combinations_of_length_k [[1; 2; 3]; [4; 5; 6]] 2) ∧
  (run_identities (reflect_tb [[1; 2; 3]; [4; 5; 6]]) 2
   = run_identities [[1; 2; 3]; [4; 5; 6]] 2 ∧
   count_unique_combinations_of_length_k (reflect_tb [[1; 2; 3]; [4; 5; 6]]) 2
   = count_unique_combinations_of_length_k [[1; 2; 3]; [4; 5; 6]] 2).
Proof.
  apply (count_unique_reflection_invariant [[1; 2; 3]; [4; 5; 6]] 2).
  - apply rectangular_check. reflexivity.
  - discriminate.
  - discriminate.
Defined.

(** ** Input validation *)

(** C3: the product search raises [ValueError] exactly when [k < 1], the
    grid has zero rows, or some row's length differs from the first row's;
    in that case not a single multiplication of a grid cell has been
    executed (the count returned next to the result is 0, and dropping the
    count gives the function itself). *)
Theorem find_greatest_product_invalid_parameter (g : NumberGrid) (k : Z) :
  ((∃ msg, find_greatest_product_of_contiguous_integers g k
           = Raise (ValueError msg))
   ↔ k < 1 ∨ rows g = 0 ∨ ragged g) ∧
  (find_greatest_product_counted g k).1
  = find_greatest_product_of_contiguous_integers g k ∧
  (k < 1 ∨ rows g = 0 ∨ ragged g →
   (find_greatest_product_counted g k).2 = 0%nat).
Proof.
  split; [|split; [apply find_greatest_product_counted_fst|]].
  - split.
    + intros [msg Hraise].
      destruct (Z.lt_ge_cases k 1) as [Hk|Hk]; [by left|].
      destruct (decide (g = [])) as [->|Hne]; [by right; left|].
      destruct (rectangular_or_ragged g) as [Hrect|Hrag]; [|by right; right].
      by rewrite find_greatest_product_fold in Hraise.
    + unfold find_greatest_product_of_contiguous_integers, rows.
      intros Hinvalid.
      destruct (Z.ltb_spec k 1) as [Hk|Hk]; [by eexists|].
      destruct (Z.eqb_spec (len g) 0) as [Hlen|Hlen]; [by eexists|].
      destruct Hinvalid as [?|[?|Hrag]]; [lia|done|].
      rewrite getitem_first_row by (by intros ->). simpl. fold (cols g).
      rewrite (proj2 (ragged_check g) Hrag). by eexists.
  - unfold find_greatest_product_counted, rows. intros Hinvalid.
    destruct (Z.ltb_spec k 1) as [Hk|Hk]; [done|].
    destruct (Z.eqb_spec (len g) 0) as [Hlen|Hlen]; [done|].
    destruct Hinvalid as [?|[?|Hrag]]; [lia|done|].
    rewrite getitem_first_row by (by intros ->). fold (cols g).
    by rewrite (proj2 (ragged_check g) Hrag).
Qed.

(** C4, as the code has it: the counting function validates nothing and
    never raises [ValueError].  It returns a count, which for [k < 1] is 0
    or 1, or else, only for [k >= 1] on a grid with rows of unequal length,
    it fails with [IndexError] on reaching past the end of a short row. *)
Theorem count_unique_never_invalid_parameter (g : NumberGrid) (k : Z) :
  (∃ n, count_unique_combinations_of_length_k g k = Ok n ∧
        (k < 1 → 0 ≤ n ≤ 1)) ∨
  (count_unique_combinations_of_length_k g k = Raise IndexError ∧
   1 ≤ k ∧ ragged g).
Proof.
  destruct (Z.lt_ge_cases k 1) as [Hk|Hk].
  { left. destruct (count_unique_short g k Hk) as (n & Hn & Hle). eauto. }
  destruct (rectangular_or_ragged g) as [Hrect|Hrag].
  { left. rewrite count_unique_fold by done. eexists. split; [done|lia]. }
  pose proof (count_unique_index_error_only g k) as Hno.
  destruct (count_unique_combinations_of_length_k g k) as [n|[msg|]].
  - left. exists n. split; [done|lia].
  - by destruct (Hno msg).
  - by right.
Qed.

(** C4 as stated fails: with [k = 0] a count is returned, and so it is on a
    grid with rows of unequal length whose short rows are never overrun. *)
Lemma count_unique_accepts_invalid_input :
  count_unique_combinations_of_length_k [[1; 2]; [3; 4]] 0 = Ok 1 ∧
  ragged [[1]; [2; 3]] ∧
  count_unique_combinations_of_length_k [[1]; [2; 3]] 1 = Ok 2.
Proof.
  split; [reflexivity|]. split; [|reflexivity].
  apply ragged_check. reflexivity.
Qed.

(** * Further properties of the two functions *)

(** ** When a run fits *)

Lemma no_runs_iff (R C k : Z) :
  1 ≤ k →
  enumerate_runs directions R C k = [] ↔ R ≤ 0 ∨ C ≤ 0 ∨ (R < k ∧ C < k).
Proof.
  intros Hk. split.
  - intros Hnil.
    destruct (Z.le_gt_cases R 0) as [?|HR]; [by left|].
    destruct (Z.le_gt_cases C 0) as [?|HC]; [by right; left|].
    destruct (Z.lt_ge_cases C k) as [HCk|HCk].
    + destruct (Z.lt_ge_cases R k) as [HRk|HRk]; [by right; right|].
      assert (Run 0 0 1 0 ∈ enumerate_runs directions R C k) as Hρ.
      { apply elem_of_enumerate_runs. unfold inside, directions. simpl.
        split; [lia|]. set_solver. }
      rewrite Hnil in Hρ. by apply elem_of_nil in Hρ.
    + assert (Run 0 0 0 1 ∈ enumerate_runs directions R C k) as Hρ.
      { apply elem_of_enumerate_runs. unfold inside, directions. simpl.
        split; [lia|]. set_solver. }
      rewrite Hnil in Hρ. by apply elem_of_nil in Hρ.
  - intros Hno. apply elem_of_nil_inv.
    intros ρ [(Hr & Hc & Her & Hec) Hd]%elem_of_enumerate_runs.
    unfold directions in Hd.
    repeat (apply elem_of_cons in Hd as [Hd|Hd]; [injection Hd as Hdr Hdc; lia|]).
    by apply elem_of_nil in Hd.
Qed.

Lemma find_greatest_product_of_runs (g : NumberGrid) (k : Z) :
  rectangular g → g ≠ [] → 1 ≤ k →
  enumerate_runs directions (rows g) (cols g) k ≠ [] →
  ∃ m,
    find_greatest_product_of_contiguous_integers g k = Ok m ∧
    is_maximum m
      (product ∘ line g k <$> enumerate_runs directions8 (rows g) (cols g) k) ∧
    is_maximum m
      (product ∘ line g k <$> enumerate_runs directions (rows g) (cols g) k).
Proof.
  intros Hrect Hne Hk Hruns.
  rewrite find_greatest_product_fold by done.
  set (P4 := product ∘ line g k <$> enumerate_runs directions _ _ k).
  assert (P4 ≠ []) as HP4.
  { unfold P4. by destruct (enumerate_runs directions _ _ _). }
  destruct (foldl_update_max P4 HP4) as (m & -> & Hin & Hmax).
  exists m. split; [done|]. split; [|done]. split.
  - by apply products_eight_four.
  - intros x Hx%products_eight_four. by apply Hmax.
Qed.

(** X1: the product search never fails on an index: whatever the grid and
    the run length, it returns an integer or raises [ValueError]. *)
Theorem find_greatest_product_never_index_error (g : NumberGrid) (k : Z) :
  (∃ m, find_greatest_product_of_contiguous_integers g k = Ok m) ∨
  (∃ msg, find_greatest_product_of_contiguous_integers g k
          = Raise (ValueError msg)).
Proof.
  unfold find_greatest_product_of_contiguous_integers.
  destruct (Z.ltb_spec k 1) as [Hk|Hk]; [right; by eexists|].
  destruct (Z.eqb_spec (len g) 0) as [Hlen|Hlen]; [right; by eexists|].
  assert (g ≠ []) as Hne by (by intros ->).
  rewrite getitem_first_row by done. simpl. fold (cols g). fold (rows g).
  destruct (existsb _ g) eqn:Hcheck; [right; by eexists|].
  apply rectangular_check in Hcheck. left.
  rewrite greatest_product_over_fold by (intros; by apply run_product_line).
  simpl. by eexists.
Qed.

(** X2: on a rectangular grid with at least one row and one column, as soon
    as the run length [k >= 1] fits one of the two dimensions the function
    returns the maximum of the products of the runs of length [k], over the
    four base directions and just as well over all eight. *)
Theorem find_greatest_product_maximum_when_run_fits (g : NumberGrid) (k : Z) :
  rectangular g → 1 ≤ rows g → 1 ≤ cols g → 1 ≤ k →
  k ≤ rows g ∨ k ≤ cols g →
  ∃ m,
    find_greatest_product_of_contiguous_integers g k = Ok m ∧
    is_maximum m
      (product ∘ line g k <$> enumerate_runs directions8 (rows g) (cols g) k) ∧
    is_maximum m
      (product ∘ line g k <$> enumerate_runs directions (rows g) (cols g) k).
Proof.
  intros Hrect HR HC Hk Hfit.
  apply find_greatest_product_of_runs; [done| |done|].
  - intros ->. unfold rows, len in HR. simpl in HR. lia.
  - rewrite no_runs_iff by done. lia.
Qed.

Lemma find_greatest_product_maximum_when_run_fits_witness :
  ∃ m,
    find_greatest_product_of_contiguous_integers [[2; 3; 4]] 3 = Ok m ∧
    is_maximum m
      (product ∘ line [[2; 3; 4]] 3 <$> enumerate_runs directions8 1 3 3) ∧
    is_maximum m
      (product ∘ line [[2; 3; 4]] 3 <$> enumerate_runs directions 1 3 3).
Proof.
  apply (find_greatest_product_maximum_when_run_fits [[2; 3; 4]] 3).
  - apply rectangular_check. reflexivity.
  - discriminate.
  - discriminate.
  - discriminate.
  - right. discriminate.
Defined.

(** X3: on a grid whose rows are all empty there is no cell to start from,
    and for every [k >= 1] the function returns the fallback 0. *)
Theorem find_greatest_product_empty_rows (g : NumberGrid) (k : Z) :
  rectangular g → g ≠ [] → cols g = 0 → 1 ≤ k →
  find_greatest_product_of_contiguous_integers g k = Ok 0.
Proof.
  intros Hrect Hne HC Hk. rewrite find_greatest_product_fold by done.
  rewrite (proj2 (no_runs_iff _ _ _ Hk)); [done|]. lia.
Qed.

Lemma find_greatest_product_empty_rows_witness :
  find_greatest_product_of_contiguous_integers [[]; []] 1 = Ok 0.
Proof.
  apply (find_greatest_product_empty_rows [[]; []] 1).
  - apply rectangular_check. reflexivity.
  - discriminate.
  - reflexivity.
  - discriminate.
Defined.

(** X4: on a rectangular grid and for [k >= 1] the count is 0 exactly when
    no run fits: the grid has no row, or no column, or [k] exceeds both the
    row count and the column count. *)
Theorem count_unique_zero_iff (g : NumberGrid) (k : Z) :
  rectangular g → 1 ≤ k →
  count_unique_combinations_of_length_k g k = Ok 0 ↔
  rows g = 0 ∨ cols g = 0 ∨ (rows g < k ∧ cols g < k).
Proof.
  intros Hrect Hk. rewrite count_unique_fold by done.
  assert (0 ≤ rows g ∧ 0 ≤ cols g) as [HR HC] by (unfold rows, cols, len; lia).
  transitivity (enumerate_runs directions (rows g) (cols g) k = []);
    [|rewrite no_runs_iff by done; lia].
  unfold run_identities. split.
  - intros [= Hsize]. apply Nat2Z.inj_iff with (m := 0%nat) in Hsize.
    apply size_empty_inv in Hsize.
    destruct (enumerate_runs directions _ _ _) as [|ρ l]; [done|].
    simpl in Hsize. set_solver.
  - by intros ->.
Qed.

Lemma count_unique_zero_iff_witness :
  count_unique_combinations_of_length_k [[1; 2]; [3; 4]] 3 = Ok 0 ↔
  rows [[1; 2]; [3; 4]] = 0 ∨ cols [[1; 2]; [3; 4]] = 0 ∨
  (rows [[1; 2]; [3; 4]] < 3 ∧ cols [[1; 2]; [3; 4]] < 3).
Proof.
  apply (count_unique_zero_iff [[1; 2]; [3; 4]] 3).
  - apply rectangular_check. reflexivity.
  - discriminate.
Defined.

(** ** Symmetries of the product search *)

Lemma same_elements_same_max (l l' : list Z) :
  (∀ x, x ∈ l ↔ x ∈ l') → foldl update_max None l = foldl update_max None l'.
Proof.
  intros Hsame. destruct (decide (l = [])) as [->|Hl].
  - destruct l' as [|x l']; [done|].
    assert (x ∈ @nil Z) as Hx by (apply Hsame; by left).
    by apply elem_of_nil in Hx.
  - assert (l' ≠ []) as Hl'.
    { intros ->. destruct l as [|x l]; [done|].
      assert (x ∈ @nil Z) as Hx by (apply Hsame; by left).
      by apply elem_of_nil in Hx. }
    destruct (foldl_update_max l Hl) as (m & -> & Hin & Hmax).
    destruct (foldl_update_max l' Hl') as (m' & -> & Hin' & Hmax').
    f_equal. apply (is_maximum_unique m m' l); [done|].
    split; [by apply Hsame|]. intros x Hx%Hsame. by apply Hmax'.
Qed.

(** A grid [g'] whose base-direction runs are, cell for cell, runs of [g] in
    one of the eight directions has no product and no identity that [g]
    lacks.  The two grids need not have the same shape. *)
Section grid_symmetry.
Context (g g' : NumberGrid) (k : Z) (φ : run → run).
Hypothesis Hφ :
  ∀ ρ, ρ ∈ enumerate_runs directions (rows g') (cols g') k →
       φ ρ ∈ enumerate_runs directions8 (rows g) (cols g) k ∧
       line g' k ρ = line g k (φ ρ).

Lemma products_symmetry (x : Z) :
  x ∈ (product ∘ line g' k <$> enumerate_runs directions (rows g') (cols g') k) →
  x ∈ (product ∘ line g k <$> enumerate_runs directions (rows g) (cols g) k).
Proof.
  intros (ρ & -> & Hρ)%list_elem_of_fmap. destruct (Hφ ρ Hρ) as [Hφρ Hline].
  apply products_eight_four. apply list_elem_of_fmap.
  exists (φ ρ). split; [|done]. unfold compose. by rewrite Hline.
Qed.

Lemma identities_symmetry : run_identities g' k ⊆ run_identities g k.
Proof.
  intros x. unfold run_identities.
  rewrite !elem_of_list_to_set, !list_elem_of_fmap.
  intros (ρ & -> & Hρ). destruct (Hφ ρ Hρ) as [Hφρ Hline].
  destruct (eight_to_four g _ _ _ _ Hφρ) as (ρ' & Hρ' & Heq).
  exists ρ'. split; [|done]. unfold compose.
  rewrite <- !canonical_canonical_identity, Hline.
  apply canonical_eq_iff. destruct Heq as [->| ->]; [by left|right].
  by rewrite reverse_involutive.
Qed.
End grid_symmetry.

Lemma find_greatest_product_same_products (g g' : NumberGrid) (k : Z) :
  rectangular g → rectangular g' → g ≠ [] → g' ≠ [] → 1 ≤ k →
  (∀ x,
     x ∈ (product ∘ line g' k <$> enumerate_runs directions (rows g') (cols g') k)
     ↔ x ∈ (product ∘ line g k <$> enumerate_runs directions (rows g) (cols g) k)) →
  find_greatest_product_of_contiguous_integers g' k
  = find_greatest_product_of_contiguous_integers g k.
Proof.
  intros Hrect Hrect' Hne Hne' Hk Hsame.
  rewrite !find_greatest_product_fold by done.
  by rewrite (same_elements_same_max _ _ Hsame).
Qed.

Lemma find_greatest_product_short (g : NumberGrid) (k : Z) :
  k < 1 →
  find_greatest_product_of_contiguous_integers g k
  = Raise (ValueError "contiguous_integers must be >= 1").
Proof.
  intros Hk. unfold find_greatest_product_of_contiguous_integers.
  by destruct (Z.ltb_spec k 1); [|lia].
Qed.

Lemma find_greatest_product_ragged (g : NumberGrid) (k : Z) :
  1 ≤ k → ragged g →
  find_greatest_product_of_contiguous_integers g k
  = Raise (ValueError "All rows in the grid must have the same length").
Proof.
  intros Hk Hrag. unfold find_greatest_product_of_contiguous_integers.
  destruct (Z.ltb_spec k 1); [lia|].
  assert (g ≠ []) as Hne.
  { intros ->. destruct Hrag as (row & Hin & _). by apply elem_of_nil in Hin. }
  destruct (Z.eqb_spec (len g) 0) as [Hlen|_].
  { destruct g; [done|]. unfold len in Hlen. simpl in Hlen. lia. }
  rewrite getitem_first_row by done. simpl. fold (cols g).
  by rewrite (proj2 (ragged_check g) Hrag).
Qed.

Lemma rectangular_reflect_lr_iff (g : NumberGrid) :
  rectangular (reflect_lr g) ↔ rectangular g.
Proof.
  split; [|apply rectangular_reflect_lr].
  intros H%rectangular_reflect_lr. by rewrite reflect_lr_involutive in H.
Qed.

Lemma rectangular_reflect_tb_iff (g : NumberGrid) :
  rectangular (reflect_tb g) ↔ rectangular g.
Proof.
  split; [|apply rectangular_reflect_tb].
  intros H%rectangular_reflect_tb. by rewrite reflect_tb_involutive in H.
Qed.

Lemma reflect_lr_runs (g : NumberGrid) (k : Z) (ρ : run) :
  rectangular g →
  ρ ∈ enumerate_runs directions (rows (reflect_lr g)) (cols (reflect_lr g)) k →
  mirror_lr (cols g) ρ ∈ enumerate_runs directions8 (rows g) (cols g) k ∧
  line (reflect_lr g) k ρ = line g k (mirror_lr (cols g) ρ).
Proof.
  intros Hrect. rewrite rows_reflect_lr, cols_reflect_lr.
  intros [Hin Hd]%elem_of_enumerate_runs. split.
  - apply elem_of_enumerate_runs. split; [by apply inside_mirror_lr|].
    by apply directions_mirrored.
  - by apply line_reflect_lr.
Qed.

Lemma reflect_tb_runs (g : NumberGrid) (k : Z) (ρ : run) :
  rectangular g →
  ρ ∈ enumerate_runs directions (rows (reflect_tb g)) (cols (reflect_tb g)) k →
  mirror_tb (rows g) ρ ∈ enumerate_runs directions8 (rows g) (cols g) k ∧
  line (reflect_tb g) k ρ = line g k (mirror_tb (rows g) ρ).
Proof.
  intros Hrect. rewrite rows_reflect_tb, cols_reflect_tb by done.
  intros [Hin Hd]%elem_of_enumerate_runs. split.
  - apply elem_of_enumerate_runs. split; [by apply inside_mirror_tb|].
    by apply directions_mirrored.
  - by apply line_reflect_tb.
Qed.

Lemma find_greatest_product_reflect_lr (g : NumberGrid) (k : Z) :
  find_greatest_product_of_contiguous_integers (reflect_lr g) k
  = find_greatest_product_of_contiguous_integers g k.
Proof.
  destruct (Z.lt_ge_cases k 1) as [Hk|Hk].
  { by rewrite !find_greatest_product_short. }
  destruct (decide (g = [])) as [->|Hne]; [done|].
  assert (reflect_lr g ≠ []) as Hne' by (by destruct g).
  destruct (rectangular_or_ragged g) as [Hrect|Hrag].
  - apply find_greatest_product_same_products;
      [done|by apply rectangular_reflect_lr|done..|].
    intros x. split.
    + apply (products_symmetry g _ k (mirror_lr (cols g))).
      intros ρ. by apply reflect_lr_runs.
    + rewrite <- (reflect_lr_involutive g) at 1 2 3.
      apply (products_symmetry _ _ k (mirror_lr (cols (reflect_lr g)))).
      intros ρ. by apply reflect_lr_runs, rectangular_reflect_lr.
  - assert (ragged (reflect_lr g)) as Hrag'.
    { destruct (rectangular_or_ragged (reflect_lr g)) as [Hrect'|?]; [|done].
      apply (proj1 (rectangular_reflect_lr_iff g)) in Hrect'.
      by destruct (rectangular_not_ragged g Hrect'). }
    by rewrite !find_greatest_product_ragged by done.
Qed.

Lemma find_greatest_product_reflect_tb (g : NumberGrid) (k : Z) :
  find_greatest_product_of_contiguous_integers (reflect_tb g) k
  = find_greatest_product_of_contiguous_integers g k.
Proof.
  destruct (Z.lt_ge_cases k 1) as [Hk|Hk].
  { by rewrite !find_greatest_product_short. }
  destruct (decide (g = [])) as [->|Hne]; [done|].
  assert (reflect_tb g ≠ []) as Hne'.
  { intros Hnil. apply (f_equal reflect_tb) in Hnil.
    by rewrite reflect_tb_involutive in Hnil. }
  destruct (rectangular_or_ragged g) as [Hrect|Hrag].
  - apply find_greatest_product_same_products;
      [done|by apply rectangular_reflect_tb|done..|].
    intros x. split.
    + apply (products_symmetry g _ k (mirror_tb (rows g))).
      intros ρ. by apply reflect_tb_runs.
    + rewrite <- (reflect_tb_involutive g) at 1 2 3.
      apply (products_symmetry _ _ k (mirror_tb (rows (reflect_tb g)))).
      intros ρ. by apply reflect_tb_runs, rectangular_reflect_tb.
  - assert (ragged (reflect_tb g)) as Hrag'.
    { destruct (rectangular_or_ragged (reflect_tb g)) as [Hrect'|?]; [|done].
      apply (proj1 (rectangular_reflect_tb_iff g)) in Hrect'.
      by destruct (rectangular_not_ragged g Hrect'). }
    by rewrite !find_greatest_product_ragged by done.
Qed.

(** X5: mirroring the grid left-right (every row reversed) or top-bottom
    (the rows in reverse order) never changes what the product search does:
    on every grid and for every run length it returns the same product, or
    raises the same error. *)
Theorem find_greatest_product_reflection_invariant (g : NumberGrid) (k : Z) :
  find_greatest_product_of_contiguous_integers (reflect_lr g) k
  = find_greatest_product_of_contiguous_integers g k ∧
  find_greatest_product_of_contiguous_integers (reflect_tb g) k
  = find_greatest_product_of_contiguous_integers g k.
Proof.
  split; [apply find_greatest_product_reflect_lr
         |apply find_greatest_product_reflect_tb].
Qed.

(** ** Transposing the grid *)

Example transpose_two_by_three :
  transpose [[1; 2; 3]; [4; 5; 6]] = [[1; 4]; [2; 5]; [3; 6]].
Proof. reflexivity. Qed.

Lemma rows_nonneg (g : NumberGrid) : 0 ≤ rows g.
Proof. unfold rows, len. lia. Qed.

Lemma cols_nonneg (g : NumberGrid) : 0 ≤ cols g.
Proof. unfold cols, len. lia. Qed.

Lemma rows_transpose (g : NumberGrid) : rows (transpose g) = cols g.
Proof.
  pose proof (cols_nonneg g). unfold rows at 1, len, transpose, range.
  rewrite length_fmap, length_seqZ. lia.
Qed.

Lemma cols_transpose (g : NumberGrid) :
  1 ≤ cols g → cols (transpose g) = rows g.
Proof.
  intros HC. pose proof (rows_nonneg g).
  unfold cols at 1, transpose, range at 2.
  rewrite (seqZ_cons 0 (cols g)) by lia. simpl.
  unfold len, range. rewrite length_fmap, length_seqZ. lia.
Qed.

Lemma rectangular_transpose (g : NumberGrid) :
  1 ≤ cols g → rectangular (transpose g).
Proof.
  intros HC row Hrow. rewrite cols_transpose by done.
  pose proof (rows_nonneg g).
  unfold transpose in Hrow. apply list_elem_of_fmap in Hrow as (c & -> & _).
  unfold len, range. rewrite length_fmap, length_seqZ. lia.
Qed.

Lemma cell_transpose (g : NumberGrid) (r c : Z) :
  0 ≤ r < cols g → 0 ≤ c < rows g → cell (transpose g) r c = cell g c r.
Proof.
  intros Hr Hc. unfold cell at 1, transpose, range.
  rewrite list_lookup_fmap, lookup_seqZ_lt by lia. simpl.
  rewrite list_lookup_fmap, lookup_seqZ_lt by lia. simpl.
  f_equal; lia.
Qed.

Lemma inside_swap (R C k : Z) (ρ : run) :
  inside R C k ρ → inside C R k (swap ρ).
Proof. unfold inside. simpl. tauto. Qed.

Lemma directions_swapped (dr dc : Z) :
  (dr, dc) ∈ directions → (dc, dr) ∈ directions8.
Proof.
  unfold directions8, directions. intros Hd.
  repeat (apply elem_of_cons in Hd as [Hd|Hd];
          [injection Hd as -> ->; simpl; set_solver|]).
  by apply elem_of_nil in Hd.
Qed.

Section transposed_runs.
Context (g : NumberGrid) (k : Z).
Hypothesis HC : 1 ≤ cols g.

Lemma transpose_runs (ρ : run) :
  ρ ∈ enumerate_runs directions (rows (transpose g)) (cols (transpose g)) k →
  swap ρ ∈ enumerate_runs directions8 (rows g) (cols g) k ∧
  line (transpose g) k ρ = line g k (swap ρ).
Proof.
  rewrite rows_transpose, cols_transpose by done.
  intros [Hin Hd]%elem_of_enumerate_runs. split.
  - apply elem_of_enumerate_runs. split; [by apply inside_swap|].
    by apply directions_swapped.
  - unfold line. apply list_fmap_ext. intros n i Hi%list_elem_of_lookup_2.
    destruct (inside_step _ _ _ _ _ Hin Hi) as [Hr Hc].
    by rewrite cell_transpose.
Qed.

Lemma runs_transpose (ρ : run) :
  ρ ∈ enumerate_runs directions (rows g) (cols g) k →
  swap ρ ∈ enumerate_runs directions8
             (rows (transpose g)) (cols (transpose g)) k ∧
  line g k ρ = line (transpose g) k (swap ρ).
Proof.
  rewrite rows_transpose, cols_transpose by done.
  intros [Hin Hd]%elem_of_enumerate_runs. split.
  - apply elem_of_enumerate_runs. split; [by apply inside_swap|].
    by apply directions_swapped.
  - unfold line. apply list_fmap_ext. intros n i Hi%list_elem_of_lookup_2.
    destruct (inside_step _ _ _ _ _ Hin Hi) as [Hr Hc].
    simpl. by rewrite cell_transpose.
Qed.
End transposed_runs.

(** X6: on a rectangular grid with at least one row and one column,
    exchanging rows and columns changes neither the result of the product
    search nor the number of unique runs, whatever the run length. *)
Theorem transposition_invariant (g : NumberGrid) (k : Z) :
  rectangular g → 1 ≤ rows g → 1 ≤ cols g →
  find_greatest_product_of_contiguous_integers (transpose g) k
  = find_greatest_product_of_contiguous_integers g k ∧
  count_unique_combinations_of_length_k (transpose g) k
  = count_unique_combinations_of_length_k g k.
Proof.
  intros Hrect HR HC.
  pose proof (rectangular_transpose g HC) as Hrect'.
  assert (g ≠ []) as Hne.
  { intros ->. unfold rows, len in HR. simpl in HR. lia. }
  assert (transpose g ≠ []) as Hne'.
  { intros Hnil. pose proof (rows_transpose g) as HRt.
    rewrite Hnil in HRt. unfold rows at 1, len in HRt. simpl in HRt. lia. }
  split.
  - destruct (Z.lt_ge_cases k 1) as [Hk|Hk].
    { by rewrite !find_greatest_product_short. }
    apply find_greatest_product_same_products; try done.
    intros x. split.
    + apply (products_symmetry g _ k swap). intros ρ. by apply transpose_runs.
    + apply (products_symmetry _ g k swap). intros ρ. by apply runs_transpose.
  - rewrite !count_unique_fold by done. do 3 f_equal.
    apply (anti_symm (⊆)).
    + apply (identities_symmetry g _ k swap). intros ρ. by apply transpose_runs.
    + apply (identities_symmetry _ g k swap). intros ρ. by apply runs_transpose.
Qed.

Lemma transposition_invariant_witness :
  find_greatest_product_of_contiguous_integers
    (transpose [[1; 2; 3]; [4; 5; 6]]) 2
  = find_greatest_product_of_contiguous_integers [[1; 2; 3]; [4; 5; 6]] 2 ∧
  count_unique_combinations_of_length_k (transpose [[1; 2; 3]; [4; 5; 6]]) 2
  = count_unique_combinations_of_length_k [[1; 2; 3]; [4; 5; 6]] 2.
Proof.
  apply (transposition_invariant [[1; 2; 3]; [4; 5; 6]] 2).
  - apply rectangular_check. reflexivity.
  - discriminate.
  - discriminate.
Defined.

(** ** How much work the traversal does *)

Lemma for_each_counted_pure {A S} (body : S → A → result S * nat)
    (f : S → A → S) (K : nat) (xs : list A) (s : S) :
  (∀ s x, x ∈ xs → body s x = (Ok (f s x), K)) →
  for_each_counted body xs s = (Ok (foldl f s xs), (K * length xs)%nat).
Proof.
  revert s. induction xs as [|x xs IH]; intros s Hb; simpl.
  - by rewrite Nat.mul_0_r.
  - rewrite Hb by left. rewrite IH by (intros; apply Hb; by right).
    f_equal. lia.
Qed.

Lemma for_each_counted_bind {A B S} (body : S → A → result S * nat)
    (h : A → list B) (f : S → B → S) (K : nat) (xs : list A) (s : S) :
  (∀ s x, x ∈ xs →
     body s x = (Ok (foldl f s (h x)), (K * length (h x))%nat)) →
  for_each_counted body xs s
  = (Ok (foldl f s (xs ≫= h)), (K * length (xs ≫= h))%nat).
Proof.
  revert s. induction xs as [|x xs IH]; intros s Hb; simpl.
  - by rewrite Nat.mul_0_r.
  - rewrite Hb by left. rewrite IH by (intros; apply Hb; by right).
    by rewrite foldl_app, length_app, Nat.mul_add_distr_l.
Qed.

Lemma run_product_counted_line (g : NumberGrid) (k : Z) (ρ : run) :
  rectangular g → inside (rows g) (cols g) k ρ →
  run_product_counted g k (run_r ρ) (run_c ρ) (run_dr ρ) (run_dc ρ)
  = (Ok (product (line g k ρ)), Z.to_nat k).
Proof.
  intros Hrect Hin. unfold run_product_counted.
  rewrite (for_each_counted_pure _
             (λ p i, p * cell g (run_r ρ + i * run_dr ρ) (run_c ρ + i * run_dc ρ))
             1%nat).
  - rewrite foldl_mul, Z.mul_1_l. unfold range at 2. rewrite length_seqZ.
    f_equal. lia.
  - intros p i Hi. destruct (inside_step _ _ _ _ _ Hin Hi) as [Hr Hc].
    by rewrite (getitem_cell g _ _ Hrect Hr Hc).
Qed.

Lemma greatest_product_over_counted_fold (g : NumberGrid) (k : Z)
    (dirs : list (Z * Z)) :
  rectangular g →
  greatest_product_over_counted dirs g (rows g) (cols g) k
  = (Ok (foldl update_max None
           (product ∘ line g k <$> enumerate_runs dirs (rows g) (cols g) k)),
     (Z.to_nat k * length (enumerate_runs dirs (rows g) (cols g) k))%nat).
Proof.
  intros Hrect. unfold greatest_product_over_counted, enumerate_runs.
  rewrite foldl_fmap.
  apply for_each_counted_bind; intros s1 r Hr%elem_of_range.
  apply for_each_counted_bind; intros s2 c Hc%elem_of_range.
  apply for_each_counted_bind; intros s3 [dr dc] _.
  unfold product_step_counted. simpl.
  destruct (in_grid _ _ _ _) eqn:Hin; simpl.
  - apply in_grid_spec in Hin.
    pose proof (run_product_counted_line g k (Run r c dr dc) Hrect) as Hρ.
    simpl in Hρ. rewrite Hρ by (unfold inside; simpl; lia).
    f_equal. lia.
  - f_equal. lia.
Qed.

Lemma length_bind_le {A B} (h : A → list B) (n : nat) (l : list A) :
  (∀ x, length (h x) ≤ n)%nat → (length (l ≫= h) ≤ length l * n)%nat.
Proof.
  intros Hh. induction l as [|x l IH]; [done|].
  rewrite bind_cons, length_app. specialize (Hh x).
  change (length (x :: l)) with (S (length l)). lia.
Qed.

Lemma length_enumerate_runs (dirs : list (Z * Z)) (R C k : Z) :
  (length (enumerate_runs dirs R C k)
   ≤ Z.to_nat R * (Z.to_nat C * length dirs))%nat.
Proof.
  unfold enumerate_runs.
  etrans; [apply (length_bind_le _ (Z.to_nat C * length dirs))|].
  - intros r. etrans; [apply (length_bind_le _ (length dirs))|].
    + intros c. etrans; [apply (length_bind_le _ 1)|lia].
      intros d. destruct (in_grid _ _ _ _); simpl; lia.
    + unfold range. by rewrite length_seqZ.
  - unfold range. by rewrite length_seqZ.
Qed.

(** X7: on a rectangular grid with at least one row and for [k >= 1], the
    product search executes [product *= grid[rr][cc]] exactly [k] times for
    each run of length [k] that lies inside the grid in one of the four base
    directions.  There are [rows * (cols - k + 1)] such runs to the right,
    [(rows - k + 1) * cols] down and [(rows - k + 1) * (cols - k + 1)] along
    each diagonal (a negative factor counting as 0), so the number of
    multiplications is [k] times their sum, and at most
    [4 * k * rows * cols]. *)
Theorem find_greatest_product_multiplications (g : NumberGrid) (k : Z) :
  rectangular g → g ≠ [] → 1 ≤ k →
  Z.of_nat (find_greatest_product_counted g k).2
  = k * fitting_runs (rows g) (cols g) k ∧
  fitting_runs (rows g) (cols g) k
  = Z.of_nat (length (reference_runs (rows g) (cols g) k)) ∧
  Z.of_nat (find_greatest_product_counted g k).2 ≤ 4 * k * rows g * cols g.
Proof.
  intros Hrect Hne Hk.
  pose proof (rows_nonneg g) as HR. pose proof (cols_nonneg g) as HC.
  assert ((find_greatest_product_counted g k).2
          = (Z.to_nat k
             * length (enumerate_runs directions (rows g) (cols g) k))%nat)
    as ->.
  { unfold find_greatest_product_counted.
    destruct (Z.ltb_spec k 1); [lia|].
    destruct (Z.eqb_spec (len g) 0) as [Hlen|_].
    { destruct g; [done|]. unfold len in Hlen. simpl in Hlen. lia. }
    rewrite getitem_first_row by done. fold (cols g). fold (rows g).
    rewrite (proj2 (rectangular_check g)) by done.
    rewrite greatest_product_over_counted_fold by done.
    by destruct (foldl _ _ _). }
  pose proof (length_enumerate_runs directions (rows g) (cols g) k) as Hlen.
  change (length directions) with 4%nat in Hlen.
  apply Nat2Z.inj_le in Hlen.
  rewrite !Nat2Z.inj_mul, !Z2Nat.id in Hlen by lia.
  rewrite Nat2Z.inj_mul, Z2Nat.id by lia.
  rewrite enumerate_runs_reference in *.
  rewrite <- reference_runs_fitting by done.
  split; [done|]. split; [done|].
  transitivity (k * (rows g * (cols g * 4))); [|lia].
  apply Z.mul_le_mono_nonneg_l; [lia|done].
Qed.

Lemma find_greatest_product_multiplications_witness :
  Z.of_nat (find_greatest_product_counted [[1; 2]; [3; 4]] 2).2
  = 2 * fitting_runs (rows [[1; 2]; [3; 4]]) (cols [[1; 2]; [3; 4]]) 2 ∧
  fitting_runs (rows [[1; 2]; [3; 4]]) (cols [[1; 2]; [3; 4]]) 2
  = Z.of_nat (length (reference_runs (rows [[1; 2]; [3; 4]])
                        (cols [[1; 2]; [3; 4]]) 2)) ∧
  Z.of_nat (find_greatest_product_counted [[1; 2]; [3; 4]] 2).2
  ≤ 4 * 2 * rows [[1; 2]; [3; 4]] * cols [[1; 2]; [3; 4]].
Proof.
  apply (find_greatest_product_multiplications [[1; 2]; [3; 4]] 2).
  - apply rectangular_check. reflexivity.
  - discriminate.
  - discriminate.
Defined.

Lemma size_list_to_set_le `{Countable A} (l : list A) :
  (size (list_to_set l : gset A) ≤ length l)%nat.
Proof.
  induction l as [|x l IH].
  { rewrite list_to_set_nil, size_empty. done. }
  rewrite list_to_set_cons, size_union_alt, size_singleton.
  change (length (x :: l)) with (S (length l)).
  assert (size (list_to_set l ∖ {[x]} : gset A) ≤ size (list_to_set l : gset A))%nat
    by (apply subseteq_size; set_solver).
  lia.
Qed.

(** X8: on a rectangular grid the count never exceeds the number of runs
    that fit, hence never [4 * rows * cols]. *)
Theorem count_unique_upper_bound (g : NumberGrid) (k : Z) :
  rectangular g →
  ∃ n, count_unique_combinations_of_length_k g k = Ok n ∧
       0 ≤ n ≤ Z.of_nat (length (enumerate_runs directions (rows g) (cols g) k)) ∧
       n ≤ 4 * rows g * cols g.
Proof.
  intros Hrect. rewrite count_unique_fold by done.
  eexists. split; [done|].
  pose proof (size_list_to_set_le
                (canonical_identity ∘ line g k
                   <$> enumerate_runs directions (rows g) (cols g) k)) as Hsize.
  rewrite length_fmap in Hsize. fold (run_identities g k) in Hsize.
  pose proof (length_enumerate_runs directions (rows g) (cols g) k) as Hlen.
  pose proof (rows_nonneg g). pose proof (cols_nonneg g).
  change (length directions) with 4%nat in Hlen.
  apply Nat2Z.inj_le in Hlen.
  rewrite !Nat2Z.inj_mul, !Z2Nat.id in Hlen by lia.
  split; lia.
Qed.

Lemma count_unique_upper_bound_witness :
  ∃ n, count_unique_combinations_of_length_k [[1; 2]; [2; 1]] 2 = Ok n ∧
       0 ≤ n ≤ Z.of_nat (length (enumerate_runs directions
                                   (rows [[1; 2]; [2; 1]])
                                   (cols [[1; 2]; [2; 1]]) 2)) ∧
       n ≤ 4 * rows [[1; 2]; [2; 1]] * cols [[1; 2]; [2; 1]].
Proof.
  apply (count_unique_upper_bound [[1; 2]; [2; 1]] 2).
  apply rectangular_check. reflexivity.
Defined.

(** ** The counting function on grids that are not rectangular *)

Lemma wide_or_short_row (g : NumberGrid) : wide g ∨ short_row g.
Proof.
  destruct (decide (Forall (λ row, cols g ≤ len row) g)) as [Hall|Hnot].
  - left. intros row Hrow. by apply (proj1 (Forall_forall _ _) Hall).
  - right. apply not_Forall_Exists in Hnot; [|intros; apply _].
    apply Exists_exists in Hnot as (row & Hrow & Hlt).
    exists row. split; [done|]. simpl in Hlt. lia.
Qed.

Lemma rectangular_wide (g : NumberGrid) : rectangular g → wide g.
Proof. intros Hrect row Hrow. rewrite (Hrect row Hrow). lia. Qed.

Lemma getitem_out_of_range {A} (l : list A) (i : Z) :
  len l ≤ i → getitem l i = Raise IndexError.
Proof.
  intros Hi. unfold getitem. unfold len in *.
  destruct (Z.ltb_spec i 0); [lia|].
  destruct (Z.ltb_spec i (Z.of_nat (length l))); [lia|].
  by rewrite andb_false_r.
Qed.

Lemma getitem_cell_wide (g : NumberGrid) (r c : Z) :
  wide g → 0 ≤ r < rows g → 0 ≤ c < cols g →
  (getitem g r ≫= λ row, getitem row c) = Ok (cell g r c).
Proof.
  intros Hwide Hr Hc. unfold rows, len in Hr.
  destruct (lookup_lt_is_Some_2 g (Z.to_nat r)) as [row Hrow]; [lia|].
  pose proof (Hwide row (list_elem_of_lookup_2 _ _ _ Hrow)) as Hlen.
  unfold len in Hlen.
  rewrite (getitem_lookup g r row) by (done || lia). simpl.
  destruct (lookup_lt_is_Some_2 row (Z.to_nat c)) as [v Hv]; [lia|].
  rewrite (getitem_lookup row c v) by (done || lia).
  unfold cell. by rewrite Hrow; simpl; rewrite Hv.
Qed.

Lemma run_values_line_wide (g : NumberGrid) (k : Z) (ρ : run) :
  wide g → inside (rows g) (cols g) k ρ →
  run_values g k (run_r ρ) (run_c ρ) (run_dr ρ) (run_dc ρ) = Ok (line g k ρ).
Proof.
  intros Hwide Hin. unfold run_values, line.
  erewrite for_each_pure; [by rewrite foldl_snoc|].
  intros s i Hi. destruct (inside_step _ _ _ _ _ Hin Hi) as [Hr Hc].
  pose proof (getitem_cell_wide g _ _ Hwide Hr Hc) as Hcell.
  destruct (getitem g _); [|done]. simpl in *. by rewrite Hcell.
Qed.

Lemma count_unique_first_row (g : NumberGrid) (k : Z) :
  g ≠ [] →
  count_unique_combinations_of_length_k g k
  = seen_over directions g (rows g) (cols g) k
    ≫= λ seen, Ok (Z.of_nat (size seen)).
Proof.
  intros Hne. unfold count_unique_combinations_of_length_k.
  assert (0 < len g) as Hlen
    by (destruct g; [done|]; unfold len; simpl; lia).
  apply Z.ltb_lt in Hlen. rewrite Hlen.
  by rewrite getitem_first_row by done.
Qed.

Lemma count_unique_wide (g : NumberGrid) (k : Z) :
  wide g →
  count_unique_combinations_of_length_k g k
  = Ok (Z.of_nat (size (run_identities g k))).
Proof.
  intros Hwide. destruct (decide (g = [])) as [->|Hne]; [done|].
  rewrite count_unique_first_row by done.
  rewrite seen_over_fold by (intros; by apply run_values_line_wide). simpl.
  unfold run_identities. do 3 f_equal. f_equal. apply list_fmap_ext.
  intros _ ρ _. apply canonical_canonical_identity.
Qed.

Lemma rows_crop (g : NumberGrid) : rows (crop g) = rows g.
Proof. unfold rows, len, crop. by rewrite length_fmap. Qed.

Lemma cols_crop (g : NumberGrid) : cols (crop g) = cols g.
Proof.
  unfold crop. destruct g as [|row0 g]; [done|].
  unfold cols, len. simpl. rewrite length_take. lia.
Qed.

Lemma rectangular_crop (g : NumberGrid) : wide g → rectangular (crop g).
Proof.
  intros Hwide row (row' & -> & Hrow)%list_elem_of_fmap.
  rewrite cols_crop. specialize (Hwide row' Hrow).
  pose proof (cols_nonneg g). unfold len in *. rewrite length_take. lia.
Qed.

Lemma cell_crop (g : NumberGrid) (r c : Z) :
  0 ≤ c < cols g → cell (crop g) r c = cell g r c.
Proof.
  intros Hc. unfold cell, crop. rewrite list_lookup_fmap.
  destruct (g !! Z.to_nat r) as [row|]; [|done]. simpl.
  by rewrite lookup_take_lt by lia.
Qed.

Lemma run_identities_crop (g : NumberGrid) (k : Z) :
  run_identities (crop g) k = run_identities g k.
Proof.
  unfold run_identities. rewrite rows_crop, cols_crop. f_equal.
  apply list_fmap_ext. intros n ρ Hρ%list_elem_of_lookup_2. unfold compose.
  f_equal. apply elem_of_enumerate_runs in Hρ as [Hin _].
  unfold line. apply list_fmap_ext. intros m i Hi%list_elem_of_lookup_2.
  destruct (inside_step _ _ _ _ _ Hin Hi) as [Hr Hc].
  by apply cell_crop.
Qed.

(** X9: when no row is shorter than the first one, the counting function
    raises nothing and looks only at the columns the first row has: it
    returns what it returns on the (rectangular) grid with every row cut to
    the first row's length. *)
Theorem count_unique_ignores_extra_columns (g : NumberGrid) (k : Z) :
  wide g →
  rectangular (crop g) ∧
  count_unique_combinations_of_length_k g k
  = count_unique_combinations_of_length_k (crop g) k ∧
  ∃ n, count_unique_combinations_of_length_k g k = Ok n.
Proof.
  intros Hwide. pose proof (rectangular_crop g Hwide) as Hrect.
  split; [done|].
  rewrite (count_unique_fold (crop g)) by done.
  rewrite count_unique_wide by done.
  rewrite run_identities_crop. split; [done|by eexists].
Qed.

Lemma count_unique_ignores_extra_columns_witness :
  rectangular (crop [[1; 2]; [3; 4; 5]]) ∧
  count_unique_combinations_of_length_k [[1; 2]; [3; 4; 5]] 2
  = count_unique_combinations_of_length_k (crop [[1; 2]; [3; 4; 5]]) 2 ∧
  ∃ n, count_unique_combinations_of_length_k [[1; 2]; [3; 4; 5]] 2 = Ok n.
Proof.
  apply (count_unique_ignores_extra_columns [[1; 2]; [3; 4; 5]] 2).
  intros row Hrow.
  repeat (apply elem_of_cons in Hrow as [->|Hrow]; [discriminate|]).
  by apply elem_of_nil in Hrow.
Defined.

(** ** When the counting function overruns a short row *)

Lemma for_each_Ok_inv {A S} (body : S → A → result S)
    (xs : list A) (s s' : S) :
  for_each body xs s = Ok s' →
  ∀ x, x ∈ xs → ∃ s1 s2, body s1 x = Ok s2.
Proof.
  revert s. induction xs as [|y xs IH]; intros s Hok x Hx.
  { by apply elem_of_nil in Hx. }
  simpl in Hok. destruct (body s y) as [s1|e] eqn:Hy; [|done].
  apply elem_of_cons in Hx as [->|Hx]; [by eauto|].
  by apply (IH s1).
Qed.

Lemma seen_over_fold_dirs (g : NumberGrid) (R C k : Z) (dirs : list (Z * Z)) :
  (∀ ρ, ρ ∈ enumerate_runs dirs R C k →
     run_values g k (run_r ρ) (run_c ρ) (run_dr ρ) (run_dc ρ)
     = Ok (line g k ρ)) →
  seen_over dirs g R C k
  = Ok (list_to_set (canonical ∘ line g k <$> enumerate_runs dirs R C k)).
Proof.
  intros Hvals. unfold seen_over.
  set (add := λ (seen : gset (list Z)) ρ, {[ canonical (line g k ρ) ]} ∪ seen).
  erewrite (for_each_bind _ _ add).
  - f_equal. unfold add. rewrite foldl_add_to_set. apply (right_id_L ∅ (∪)).
  - intros s1 r Hr%elem_of_range.
    apply for_each_bind; intros s2 c Hc%elem_of_range.
    apply for_each_bind; intros s3 [dr dc] Hd.
    unfold count_step. simpl.
    destruct (in_grid _ _ _ _) eqn:Hin; simpl; [|done].
    apply in_grid_spec in Hin.
    assert (Run r c dr dc ∈ enumerate_runs dirs R C k) as Hρ.
    { apply elem_of_enumerate_runs. unfold inside. simpl. split; [lia|done]. }
    apply Hvals in Hρ. simpl in Hρ. by rewrite Hρ.
Qed.

(** With no run to read, nothing is read. *)
Lemma count_unique_no_run (g : NumberGrid) (k : Z) :
  1 ≤ k → rows g < k → cols g < k →
  count_unique_combinations_of_length_k g k = Ok 0.
Proof.
  intros Hk HR HC. destruct (decide (g = [])) as [->|Hne]; [done|].
  rewrite count_unique_first_row by done.
  assert (enumerate_runs directions (rows g) (cols g) k = []) as Hnil
    by (apply no_runs_iff; [done|lia]).
  rewrite seen_over_fold_dirs; [by rewrite Hnil|].
  intros ρ Hρ. rewrite Hnil in Hρ. by apply elem_of_nil in Hρ.
Qed.

(** A run that fits the bounds taken from the first row but passes a cell
    lying beyond the end of its own row makes the function fail. *)
Lemma count_unique_overrun (g : NumberGrid) (k r c dr dc i : Z)
    (row : list Z) :
  0 ≤ r < rows g → 0 ≤ c < cols g → (dr, dc) ∈ directions →
  in_grid (rows g) (cols g) (r + (k - 1) * dr) (c + (k - 1) * dc) = true →
  0 ≤ i < k → 0 ≤ r + i * dr → g !! Z.to_nat (r + i * dr) = Some row →
  len row ≤ c + i * dc →
  count_unique_combinations_of_length_k g k = Raise IndexError.
Proof.
  intros Hr Hc Hd Hin Hi Hrow0 Hrow Hlen.
  assert (g ≠ []) as Hne.
  { intros ->. unfold rows, len in Hr. simpl in Hr. lia. }
  pose proof (count_unique_index_error_only g k) as Hno.
  destruct (count_unique_combinations_of_length_k g k) as [n|[msg|]] eqn:Hcount;
    [exfalso|by destruct (Hno msg)|done].
  rewrite count_unique_first_row in Hcount by done.
  destruct (seen_over _ _ _ _ _) as [seen|e] eqn:Hseen; [|done].
  unfold seen_over in Hseen.
  apply for_each_Ok_inv with (x := r) in Hseen as (s1 & s2 & H1);
    [|by apply elem_of_range].
  apply for_each_Ok_inv with (x := c) in H1 as (s3 & s4 & H2);
    [|by apply elem_of_range].
  apply for_each_Ok_inv with (x := (dr, dc)) in H2 as (s5 & s6 & H3); [|done].
  unfold count_step in H3. rewrite Hin in H3. simpl in H3.
  destruct (run_values _ _ _ _ _ _) as [seq|e] eqn:Hrv; [|done].
  unfold run_values in Hrv.
  apply for_each_Ok_inv with (x := i) in Hrv as (q1 & q2 & H4);
    [|by apply elem_of_range].
  rewrite (getitem_lookup g _ row) in H4 by done. simpl in H4.
  by rewrite getitem_out_of_range in H4.
Qed.

(** X10: for [k >= 1] the counting function fails with [IndexError]
    exactly when some row is shorter than the first one and a run fits the
    bounds ([k <= rows] or [k <= cols], the column count being the first
    row's length); in every other case it returns a count. *)
Theorem count_unique_index_error_iff (g : NumberGrid) (k : Z) :
  1 ≤ k →
  (count_unique_combinations_of_length_k g k = Raise IndexError ↔
   short_row g ∧ (k ≤ rows g ∨ k ≤ cols g)) ∧
  (¬ (short_row g ∧ (k ≤ rows g ∨ k ≤ cols g)) →
   ∃ n, count_unique_combinations_of_length_k g k = Ok n).
Proof.
  intros Hk.
  assert (¬ (short_row g ∧ (k ≤ rows g ∨ k ≤ cols g)) →
          ∃ n, count_unique_combinations_of_length_k g k = Ok n) as Hok.
  { intros Hnot. destruct (wide_or_short_row g) as [Hwide|Hshort].
    - rewrite count_unique_wide by done. by eexists.
    - assert (rows g < k ∧ cols g < k) as [HR HC].
      { split; apply Z.nle_gt; intros Hle; apply Hnot; auto. }
      rewrite count_unique_no_run by done. by eexists. }
  split; [|done]. split.
  - intros Hraise.
    destruct (wide_or_short_row g) as [Hwide|Hshort].
    { by rewrite count_unique_wide in Hraise. }
    split; [done|].
    destruct (Z.le_gt_cases k (rows g)) as [?|HR]; [by left|].
    destruct (Z.le_gt_cases k (cols g)) as [?|HC]; [by right|].
    by rewrite count_unique_no_run in Hraise by (done || lia).
  - intros [(row & Hrow & Hlt) Hfit].
    apply list_elem_of_lookup in Hrow as [i1 Hi1].
    pose proof (lookup_lt_Some _ _ _ Hi1) as Hi1lt.
    assert (0 ≤ len row) by (unfold len; lia).
    assert (rows g = Z.of_nat (length g)) as HR by done.
    destruct (Z.le_gt_cases k (cols g)) as [HkC|HkC].
    + apply (count_unique_overrun g k (Z.of_nat i1) (cols g - k) 0 1 (k - 1) row);
        try lia.
      * unfold directions. set_solver.
      * apply in_grid_spec. lia.
      * replace (Z.of_nat i1 + (k - 1) * 0) with (Z.of_nat i1) by lia.
        by rewrite Nat2Z.id.
    + destruct Hfit as [HkR|?]; [|lia].
      set (r0 := Z.min (Z.of_nat i1) (rows g - k)).
      apply (count_unique_overrun g k r0 (cols g - 1) 1 0 (Z.of_nat i1 - r0) row);
        try (unfold r0; lia).
      * unfold directions. set_solver.
      * apply in_grid_spec. unfold r0. lia.
      * replace (r0 + (Z.of_nat i1 - r0) * 1) with (Z.of_nat i1) by lia.
        by rewrite Nat2Z.id.
Qed.

Lemma count_unique_index_error_iff_witness :
  (count_unique_combinations_of_length_k [[1; 2]; [3]] 2 = Raise IndexError ↔
   short_row [[1; 2]; [3]] ∧
   (2 ≤ rows [[1; 2]; [3]] ∨ 2 ≤ cols [[1; 2]; [3]])) ∧
  (¬ (short_row [[1; 2]; [3]] ∧
      (2 ≤ rows [[1; 2]; [3]] ∨ 2 ≤ cols [[1; 2]; [3]])) →
   ∃ n, count_unique_combinations_of_length_k [[1; 2]; [3]] 2 = Ok n).
Proof.
  apply (count_unique_index_error_iff [[1; 2]; [3]] 2). discriminate.
Defined.
